(** * CoinAfrique scraping pipeline: cleaner and crawler

    A shallow embedding of [utils/data_cleaner.py] and of
    [scraper/beautifulsoup_scraper.py], and the properties of the
    cleaning rules and of the crawler's failure policy.

    Modelling conventions.
    - A Python [str] is a [string] whose characters are the code points
      U+0000 .. U+00FF (Latin-1).  On that range [str.lower] only moves
      A-Z and the accented capitals U+00C0 .. U+00DE (not U+00D7), and
      the regular expression class [\d] is exactly 0-9.
    - A float64 that holds an integer is the integer itself; the mean
      and the threshold are rationals.  This is what the floating-point
      computation yields while the sum of the prices stays below 2^53
      ([exact_floats]); past that bound [float] rounds, and the
      properties that depend on the value of a price carry the bound as
      a hypothesis.
    - A DataFrame is a list of column labels and a list of rows; a row
      carries its index label and a dictionary from column label to
      cell.  Boolean indexing keeps the rows whose mask entry is true.
    - The properties of the cleaner are stated for raw record sets:
      frames whose cells hold a [str] or [None]. *)

From Stdlib Require Import String Ascii ZArith QArith List.
From Stdlib Require Import DecimalString DecimalNat DecimalFacts.
From stdpp Require Import gmap strings list fin_maps.

Local Open Scope Z_scope.

(* ===================================================================== *)
(** ** Python strings                                                     *)
(* ===================================================================== *)

Module PyStr.

(** [c.lower()] for one Latin-1 character. *)
Definition lower_char (c : ascii) : ascii :=
  let n := N_of_ascii c in
  if ((65 <=? n) && (n <=? 90) || (192 <=? n) && (n <=? 222) && negb (n =? 215))%N
  then ascii_of_N (n + 32)
  else c.

(** [s.lower()] *)
Fixpoint lower (s : string) : string :=
  match s with
  | EmptyString => EmptyString
  | String c t => String (lower_char c) (lower t)
  end.

(** [s.startswith(p)] *)
Fixpoint starts_with (p s : string) : bool :=
  match p, s with
  | EmptyString, _ => true
  | String _ _, EmptyString => false
  | String a p', String b s' => Ascii.eqb a b && starts_with p' s'
  end.

(** [needle in hay] *)
Fixpoint contains (needle hay : string) : bool :=
  starts_with needle hay ||
  match hay with
  | EmptyString => false
  | String _ t => contains needle t
  end.

(** [s.replace(old, new)] for a non-empty [old]: the occurrences of
    [old] are replaced from left to right, without overlap.  [skip]
    counts the characters of a matched occurrence still to be passed. *)
Fixpoint replace_from (old new : string) (skip : nat) (s : string) : string :=
  match s with
  | EmptyString => EmptyString
  | String c t =>
      match skip with
      | S k => replace_from old new k t
      | O =>
          if starts_with old s
          then String.append new (replace_from old new (String.length old - 1) t)
          else String c (replace_from old new O t)
      end
  end.

Definition replace (old new s : string) : string := replace_from old new O s.

(** The class [\d]. *)
Definition is_digit (c : ascii) : bool :=
  (Ascii.leb "0" c && Ascii.leb c "9")%char.

(** The longest prefix made of digits. *)
Fixpoint take_digits (s : string) : string :=
  match s with
  | EmptyString => EmptyString
  | String c t => if is_digit c then String c (take_digits t) else EmptyString
  end.

(** [re.findall(r'\d+', s)], reduced to what the cleaner reads of it:
    [None] when the list is empty, its first element otherwise. *)
Fixpoint findall_digits_first (s : string) : option string :=
  match s with
  | EmptyString => None
  | String c t => if is_digit c then Some (take_digits s) else findall_digits_first t
  end.

(** [float(s)] for a string of digits, as the integer it denotes: the
    value of the float64 while that integer is below 2^53.  Past the
    bound [float] rounds to the nearest float64, and to infinity on a
    run of more than 308 digits. *)
Fixpoint digits_value (acc : Z) (s : string) : Z :=
  match s with
  | EmptyString => acc
  | String c t => digits_value (10 * acc + (Z.of_N (N_of_ascii c) - 48)) t
  end.

Definition float_of_digits (s : string) : Z := digits_value 0 s.

(** [str(n)] for a natural number and for an integer. *)
Definition of_nat (n : nat) : string := NilEmpty.string_of_uint (Nat.to_uint n).
Definition of_Z (z : Z) : string := NilEmpty.string_of_int (Z.to_int z).

(** [c.isspace()] on Latin-1. *)
Definition is_space (c : ascii) : bool :=
  let n := N_of_ascii c in
  ((9 <=? n) && (n <=? 13) || (28 <=? n) && (n <=? 32) || (n =? 133) || (n =? 160))%N.

Fixpoint lstrip (s : string) : string :=
  match s with
  | EmptyString => EmptyString
  | String c t => if is_space c then lstrip t else s
  end.

Fixpoint rstrip (s : string) : string :=
  match s with
  | EmptyString => EmptyString
  | String c t =>
      match rstrip t with
      | EmptyString => if is_space c then EmptyString else String c EmptyString
      | t' => String c t'
      end
  end.

(** [s.strip()] *)
Definition strip (s : string) : string := rstrip (lstrip s).

End PyStr.

(* ===================================================================== *)
(** ** Cells, rows and frames                                             *)
(* ===================================================================== *)

(** What a cell of a frame holds: [None], a float NaN, a [str], or a
    float64 with an integral value. *)
Inductive value :=
  | VNone
  | VNaN
  | VStr (s : string)
  | VFloat (x : Z).

Global Instance value_eq_dec : EqDecision value.
Proof. solve_decision. Defined.

Global Instance value_countable : Countable value.
Proof.
  refine (inj_countable'
    (fun v => match v with
              | VNone => inl (inl tt)
              | VNaN => inl (inr tt)
              | VStr s => inr (inl s)
              | VFloat x => inr (inr x)
              end)
    (fun e => match e with
              | inl (inl _) => VNone
              | inl (inr _) => VNaN
              | inr (inl s) => VStr s
              | inr (inr x) => VFloat x
              end) _).
  by intros [].
Defined.

Global Instance VStr_inj : Inj (=) (=) VStr.
Proof. intros s t H. by injection H. Qed.

Record Row := mkRow {
  label : Z;
  cells : gmap string value
}.

Record DataFrame := mkDF {
  columns : list string;
  rows : list Row
}.

Global Instance Row_eq_dec : EqDecision Row.
Proof. solve_decision. Defined.

Global Instance DataFrame_eq_dec : EqDecision DataFrame.
Proof. solve_decision. Defined.

(** A Series, read by position. *)
Definition Series := list value.

(** A raw record set is a frame whose cells hold a [str] or [None], as
    the scraper builds it. *)
Definition raw_value (v : value) : Prop :=
  match v with
  | VNone | VStr _ => True
  | VNaN | VFloat _ => False
  end.

Global Instance raw_value_dec v : Decision (raw_value v).
Proof. destruct v; apply _. Defined.

Definition raw (d : DataFrame) : Prop :=
  Forall (λ r, map_Forall (λ _ v, raw_value v) (cells r)) (rows d).

Global Instance raw_dec d : Decision (raw d).
Proof. unfold raw. apply _. Defined.

(* ===================================================================== *)
(** ** The pandas operations the cleaner uses, on frame values            *)
(* ===================================================================== *)

Module Frame.

(** [df.empty]: some axis has length zero. *)
Definition empty (d : DataFrame) : bool :=
  match columns d, rows d with
  | [], _ | _, [] => true
  | _, _ => false
  end.

(** The cell of row [r] in column [c]; a missing entry reads as NaN. *)
Definition cell (c : string) (r : Row) : value := default VNaN (cells r !! c).

(** [df[c]] as a Series. *)
Definition column (c : string) (d : DataFrame) : Series := map (cell c) (rows d).

(** Boolean indexing: keep the positions whose mask entry is true. *)
Fixpoint select {A} (mask : list bool) (l : list A) : list A :=
  match mask, l with
  | b :: mask', x :: l' => if b then x :: select mask' l' else select mask' l'
  | _, _ => []
  end.

Definition set_cell (c : string) (r : Row) (v : value) : Row :=
  mkRow (label r) (<[c:=v]> (cells r)).

(** [df[c] = vals]: overwrite column [c], or add it as the last one. *)
Definition set_column (c : string) (vals : Series) (d : DataFrame) : DataFrame :=
  mkDF (if bool_decide (c ∈ columns d) then columns d else columns d ++ [c])
       (zip_with (set_cell c) (rows d) vals).

(** [df.drop(c, axis=1)] *)
Definition drop (c : string) (d : DataFrame) : DataFrame :=
  mkDF (filter (λ x, x ≠ c) (columns d))
       (map (λ r, mkRow (label r) (delete c (cells r))) (rows d)).

(** [df[cols]] for a list of labels. *)
Definition project (cols : list string) (d : DataFrame) : DataFrame :=
  mkDF cols
       (map (λ r, mkRow (label r) (filter (λ kv, kv.1 ∈ cols) (cells r))) (rows d)).

(** [df.reset_index(drop=True)] *)
Definition reset_index (d : DataFrame) : DataFrame :=
  mkDF (columns d) (imap (λ i r, mkRow (Z.of_nat i) (cells r)) (rows d)).

End Frame.

(* ===================================================================== *)
(** ** Element-wise operations on cells                                   *)
(* ===================================================================== *)

Module Cell.

(** [notna] *)
Definition notna (v : value) : bool :=
  match v with
  | VNone | VNaN => false
  | _ => true
  end.

Definition isna (v : value) : bool := negb (notna v).

(** [.str.len() > 0]: the length is NaN on what is not a [str], and a
    comparison with NaN is false. *)
Definition str_len_positive (v : value) : bool :=
  match v with
  | VStr s => bool_decide (0 < String.length s)%nat
  | _ => false
  end.

(** [str(v)], which is also what [astype(str)] and an f-string apply.
    For a float this is its shortest representation, the integer
    followed by [.0] below 1e16. *)
Definition to_str (v : value) : string :=
  match v with
  | VNone => "None"
  | VNaN => "nan"
  | VStr s => s
  | VFloat x => String.append (PyStr.of_Z x) ".0"
  end.

(** [prix_num >= seuil], false on NaN.  The comparison of the exact
    values is the comparison of the float64 values while the sum the
    threshold comes from is below 2^53. *)
Definition ge (v : value) (seuil : Q) : bool :=
  match v with
  | VFloat x => Qle_bool seuil (inject_Z x)
  | _ => false
  end.

(** [.dropna()] on a float column. *)
Definition dropna (s : Series) : list Z :=
  omap (λ v, match v with VFloat x => Some x | _ => None end) s.

(** [.mean()] of a non-empty list of floats, as the exact quotient.
    The float64 mean is this quotient rounded, and the sum it divides
    is exact while it stays below 2^53. *)
Definition mean (l : list Z) : Q :=
  (inject_Z (foldr Z.add 0%Z l) / inject_Z (Z.of_nat (length l)))%Q.

End Cell.

(* ===================================================================== *)
(** ** The object store                                                   *)
(* ===================================================================== *)

(** Frames are objects: a variable holds a reference, and two variables
    may hold the same one.  The store is the list of the frames
    allocated so far; a reference is a position in it. *)

Abbreviation loc := nat.
Abbreviation Store := (list DataFrame).

Definition St (A : Type) : Type := Store → option (A * Store).

Global Instance St_ret : MRet St := λ A x s, Some (x, s).
Global Instance St_bind : MBind St := λ A B f m s,
  match m s with
  | Some (x, s') => f x s'
  | None => None
  end.

Module Ref.

Definition fail {A} : St A := λ _, None.

Definition deref (r : loc) : St DataFrame := λ s,
  match s !! r with
  | Some d => Some (d, s)
  | None => None
  end.

Definition alloc (d : DataFrame) : St loc := λ s, Some (length s, s ++ [d]).

Definition assign (r : loc) (d : DataFrame) : St unit := λ s,
  if bool_decide (r < length s)%nat then Some (tt, <[r:=d]> s) else None.

(** [df.copy()] *)
Definition copy (r : loc) : St loc := d ← deref r; alloc d.

(** [df.columns] and [len(df)] *)
Definition get_columns (r : loc) : St (list string) := d ← deref r; mret (columns d).
Definition len (r : loc) : St nat := d ← deref r; mret (length (rows d)).

(** [df[c]]: a [KeyError] when the column is absent. *)
Definition getitem (r : loc) (c : string) : St Series :=
  d ← deref r;
  if bool_decide (c ∈ columns d) then mret (Frame.column c d) else fail.

(** [df[mask]]: a new frame. *)
Definition getitem_mask (r : loc) (mask : list bool) : St loc :=
  d ← deref r;
  if bool_decide (length mask = length (rows d))
  then alloc (mkDF (columns d) (Frame.select mask (rows d)))
  else fail.

(** [df[cols]]: a new frame. *)
Definition getitem_list (r : loc) (cols : list string) : St loc :=
  d ← deref r;
  if bool_decide (Forall (λ c, c ∈ columns d) cols)
  then alloc (Frame.project cols d)
  else fail.

(** [df[mask]] for a mask that [Series.apply] has built.  On an empty
    Series [apply] returns an empty Series of dtype object, which
    pandas does not take for a boolean indexer: it reads [df[mask]] as
    the selection of the columns the Series lists, and there are
    none. *)
Definition getitem_applied (r : loc) (mask : list bool) : St loc :=
  match mask with
  | [] => getitem_list r []
  | _ => getitem_mask r mask
  end.

(** [df[c] = vals]: the frame itself is changed; the lengths must agree. *)
Definition setitem (r : loc) (c : string) (vals : Series) : St unit :=
  d ← deref r;
  if bool_decide (length vals = length (rows d))
  then assign r (Frame.set_column c vals d)
  else fail.

(** [df.drop(c, axis=1)]: a new frame; a [KeyError] when [c] is absent. *)
Definition drop (r : loc) (c : string) : St loc :=
  d ← deref r;
  if bool_decide (c ∈ columns d) then alloc (Frame.drop c d) else fail.

(** [df.reset_index(drop=True)]: a new frame. *)
Definition reset_index (r : loc) : St loc :=
  d ← deref r; alloc (Frame.reset_index d).

End Ref.

(* ===================================================================== *)
(** ** utils/data_cleaner.py                                              *)
(* ===================================================================== *)

Definition keywords : list string :=
  ["demande"; String.append "n" (String "233" "gociable"); "contacter"; "appeler"].

Definition columns_to_keep : list string := ["nom"; "prix"; "adresse"; "image_lien"].

(** The mask of step 2 on one price cell. *)
Definition keyword_free (v : value) : bool :=
  let x := PyStr.lower (Cell.to_str v) in
  negb (existsb (λ keyword, PyStr.contains keyword x) keywords).

(** The value step 3 computes for one price cell. *)
Definition prix_num_of (v : value) : value :=
  let x := PyStr.replace "CFA" "" (PyStr.replace " " "" (Cell.to_str v)) in
  match PyStr.findall_digits_first x with
  | Some ds => VFloat (PyStr.float_of_digits ds)
  | None => VNaN
  end.

(** The loop of step 4 over the names, with its dictionary of counts
    and the list it builds. *)
Fixpoint suffix_loop (noms : Series) (nom_counts : gmap value nat)
    (new_noms : list value) : list value :=
  match noms with
  | [] => new_noms
  | nom :: rest =>
      match nom_counts !! nom with
      | Some k =>
          suffix_loop rest (<[nom := S k]> nom_counts)
            (new_noms ++
               [VStr (String.append (Cell.to_str nom)
                        (String.append " " (PyStr.of_nat (S k))))])
      | None =>
          suffix_loop rest (<[nom := O]> nom_counts) (new_noms ++ [nom])
      end
  end.

(** Step 1: drop the rows where the name is empty. *)
Definition drop_unnamed (df_clean : loc) : St loc :=
  cols ← Ref.get_columns df_clean;
  if bool_decide ("nom" ∈ cols) then
    nom ← Ref.getitem df_clean "nom";
    Ref.getitem_mask df_clean
      (map (λ v, Cell.notna v && Cell.str_len_positive v) nom)
  else mret df_clean.

(** Step 2: drop the rows whose price is on request. *)
Definition drop_on_request (df_clean : loc) : St loc :=
  cols ← Ref.get_columns df_clean;
  if bool_decide ("prix" ∈ cols) then
    prix ← Ref.getitem df_clean "prix";
    Ref.getitem_applied df_clean (map keyword_free prix)
  else mret df_clean.

(** Step 3: drop the prices below half the mean. *)
Definition drop_outliers (df_clean : loc) : St loc :=
  cols ← Ref.get_columns df_clean;
  n ← Ref.len df_clean;
  if bool_decide ("prix" ∈ cols) && bool_decide (0 < n)%nat then
    prix ← Ref.getitem df_clean "prix";
    _ ← Ref.setitem df_clean "prix_num" (map prix_num_of prix);
    prix_num ← Ref.getitem df_clean "prix_num";
    let prix_valides := Cell.dropna prix_num in
    df_clean ←
      (if bool_decide (0 < length prix_valides)%nat then
         let prix_moyen := Cell.mean prix_valides in
         let seuil := (prix_moyen / 2)%Q in
         Ref.getitem_mask df_clean
           (map (λ v, Cell.isna v || Cell.ge v seuil) prix_num)
       else mret df_clean);
    Ref.drop df_clean "prix_num"
  else mret df_clean.

(** Step 4: number the repeated names. *)
Definition suffix_duplicates (df_clean : loc) : St loc :=
  cols ← Ref.get_columns df_clean;
  if bool_decide ("nom" ∈ cols) then
    nom ← Ref.getitem df_clean "nom";
    _ ← Ref.setitem df_clean "nom" (suffix_loop nom ∅ []);
    mret df_clean
  else mret df_clean.

(** Step 5: keep the required columns and renumber the rows. *)
Definition keep_required (df_clean : loc) : St loc :=
  cols ← Ref.get_columns df_clean;
  df_clean ←
    Ref.getitem_list df_clean (filter (λ col, col ∈ cols) columns_to_keep);
  Ref.reset_index df_clean.

Definition clean_beautifulsoup_data (df : loc) : St loc :=
  d ← Ref.deref df;
  if Frame.empty d then mret df else
  df_clean ← Ref.copy df;
  df_clean ← drop_unnamed df_clean;
  df_clean ← drop_on_request df_clean;
  df_clean ← drop_outliers df_clean;
  df_clean ← suffix_duplicates df_clean;
  keep_required df_clean.

(** The cleaner run on a frame held alone in a fresh store: the frame
    it returns. *)
Definition cleaned (d : DataFrame) : option DataFrame :=
  match clean_beautifulsoup_data O [d] with
  | Some (r, s) => s !! r
  | None => None
  end.

(* ===================================================================== *)
(** ** The site, as the scraper sees it                                   *)
(* ===================================================================== *)

(** A parsed tag: its attributes and its text. *)
Record Tag := mkTag {
  attrs : gmap string string;
  text : string
}.

(** Every Python exception the scraper can meet derives from
    [Exception]; [except requests.exceptions.RequestException] only
    catches the first kind. *)
Inductive Exn :=
  | RequestException (msg : string)
  | ValueError (msg : string)
  | LookupFailure (msg : string)
  | PlainException (msg : string).

Definition str_of_exn (e : Exn) : string :=
  match e with
  | RequestException msg | ValueError msg | LookupFailure msg
  | PlainException msg => msg
  end.

(** An ad container of a listing page: [container.find('a')] and
    [container.find('img')]. *)
Record Container := mkContainer {
  find_a : option Tag;
  find_img : option Tag
}.

(** A parsed document.  [find_all_containers] is
    [soup.find_all('div', 'col s6 m4 l3')].  On every document
    BeautifulSoup answers the three lookups of a detail page with a tag
    or with nothing, and a span found by [data-address] has that
    attribute.  The type admits more: a lookup that raises, a span
    without the attribute.  A property proved for every [Soup] holds
    for every document; an instance with a raising lookup is not a
    document the parser yields. *)
Record Soup := mkSoup {
  find_all_containers : list Container;
  find_title : Exn + option Tag;
  find_price : Exn + option Tag;
  find_address : Exn + option Tag
}.

Record Response := mkResponse {
  status_code : Z;
  reason : string;
  url : string;
  content : Soup
}.

(** The site: what a GET of a URL gives, a response or a network
    failure. *)
Definition World := string → Exn + Response.

Inductive Event :=
  | EvGet (url : string)
  | EvSleep.

(** The scraper's effects: it reads the site, logs its requests and
    sleeps, and may raise. The log is kept when an exception is
    raised. *)
Definition Scr (A : Type) : Type := World → list Event → (Exn + A) * list Event.

Global Instance Scr_ret : MRet Scr := λ A x _ tr, (inr x, tr).
Global Instance Scr_bind : MBind Scr := λ A B f m w tr,
  match m w tr with
  | (inr x, tr') => f x w tr'
  | (inl e, tr') => (inl e, tr')
  end.

Module Py.

Definition raise {A} (e : Exn) : Scr A := λ _ tr, (inl e, tr).

(** [try: m except Exception as e: handler e] *)
Definition try_except {A} (m : Scr A) (handler : Exn → Scr A) : Scr A := λ w tr,
  match m w tr with
  | (inr x, tr') => (inr x, tr')
  | (inl e, tr') => handler e w tr'
  end.

Definition lift {A} (r : Exn + A) : Scr A :=
  match r with
  | inl e => raise e
  | inr x => mret x
  end.

(** [requests.get(url, headers=get_headers(), timeout=10)] *)
Definition requests_get (url : string) : Scr Response := λ w tr,
  (w url, tr ++ [EvGet url]).

(** [response.raise_for_status()]: an [HTTPError], which is a
    [RequestException], on a 4xx or 5xx status. *)
Definition raise_for_status (r : Response) : Scr unit :=
  if bool_decide (400 ≤ status_code r < 600)
  then raise (RequestException
                (String.append (PyStr.of_Z (status_code r))
                   (String.append
                      (if bool_decide (status_code r < 500)
                       then " Client Error: " else " Server Error: ")
                      (String.append (reason r)
                         (String.append " for url: " (url r))))))
  else mret tt.

(** [time.sleep(random.uniform(a, b))] *)
Definition sleep : Scr unit := λ _ tr, (inr tt, tr ++ [EvSleep]).

End Py.

(* ===================================================================== *)
(** ** scraper/beautifulsoup_scraper.py                                   *)
(* ===================================================================== *)

Definition CATEGORIES : gmap string string :=
  <["chiens" := "https://sn.coinafrique.com/categorie/chiens"]>
  (<["moutons" := "https://sn.coinafrique.com/categorie/moutons"]>
  (<["poules-lapins-et-pigeons" :=
       "https://sn.coinafrique.com/categorie/poules-lapins-et-pigeons"]>
  (<["autres-animaux" := "https://sn.coinafrique.com/categorie/autres-animaux"]> ∅))).

(** The dictionary built for one ad. *)
Record Item := mkItem {
  nom : string;
  prix : option string;
  adresse : option string;
  image_lien : option string
}.

(** The body of the loop of [scrape_page] for one container; [data] is
    the list built so far. *)
Definition scrape_container (container : Container) (data : list Item) : Scr (list Item) :=
  Py.try_except
    (match find_a container with
     | None => mret data
     | Some link_tag =>
         match attrs link_tag !! "href" with
         | None => mret data
         | Some href =>
             let url_container := String.append "https://sn.coinafrique.com" href in
             let image_lien :=
               match find_img container with
               | Some img_tag => attrs img_tag !! "src"
               | None => None
               end in
             _ ← Py.sleep;
             Py.try_except
               (detail_response ← Py.requests_get url_container;
                _ ← Py.raise_for_status detail_response;
                let soup_container := content detail_response in
                nom_tag ← Py.lift (find_title soup_container);
                let nom := (λ t, PyStr.strip (text t)) <$> nom_tag in
                prix_tag ← Py.lift (find_price soup_container);
                let prix_text := (λ t, PyStr.strip (text t)) <$> prix_tag in
                address_span ← Py.lift (find_address soup_container);
                adresse_text ←
                  match address_span with
                  | Some span =>
                      match attrs span !! "data-address" with
                      | Some a => mret (Some a)
                      | None => Py.raise (LookupFailure "data-address")
                      end
                  | None => mret None
                  end;
                match nom with
                | Some (String c n) =>
                    mret (data ++ [mkItem (String c n) prix_text adresse_text image_lien])
                | _ => mret data
                end)
               (λ _, mret data)
         end
     end)
    (λ _, mret data).

(** The guarded fetch and extraction of a detail page: what the inner
    [try] block of the loop gives, whatever happens in it. *)
Definition detail_block (url_container : string) (image_lien : option string)
    (data : list Item) : Scr (list Item) :=
  Py.try_except
    (detail_response ← Py.requests_get url_container;
     _ ← Py.raise_for_status detail_response;
     let soup_container := content detail_response in
     nom_tag ← Py.lift (find_title soup_container);
     let nom := (λ t, PyStr.strip (text t)) <$> nom_tag in
     prix_tag ← Py.lift (find_price soup_container);
     let prix_text := (λ t, PyStr.strip (text t)) <$> prix_tag in
     address_span ← Py.lift (find_address soup_container);
     adresse_text ←
       match address_span with
       | Some span =>
           match attrs span !! "data-address" with
           | Some a => mret (Some a)
           | None => Py.raise (LookupFailure "data-address")
           end
       | None => mret None
       end;
     match nom with
     | Some (String c n) =>
         mret (data ++ [mkItem (String c n) prix_text adresse_text image_lien])
     | _ => mret data
     end)
    (λ _, mret data).

Fixpoint scrape_containers (containers : list Container) (data : list Item)
    : Scr (list Item) :=
  match containers with
  | [] => mret data
  | container :: rest =>
      data' ← scrape_container container data;
      scrape_containers rest data'
  end.

Definition e_acute : string := String "233" EmptyString.
Definition e_circ : string := String "234" EmptyString.

Definition scrape_page (url : string) : Scr (list Item) :=
  Py.try_except
    (response ← Py.requests_get url;
     _ ← Py.raise_for_status response;
     let soup := content response in
     let containers := find_all_containers soup in
     match containers with
     | [] => mret []
     | _ => scrape_containers containers []
     end)
    (λ e,
       match e with
       | RequestException _ =>
           Py.raise (PlainException
             (String.append "Erreur lors de la requ"
               (String.append e_circ (String.append "te HTTP: " (str_of_exn e)))))
       | _ =>
           Py.raise (PlainException
             (String.append "Erreur lors du scraping: " (str_of_exn e)))
       end).

(** [pd.DataFrame(all_data)] for a list of item dictionaries. *)
Definition value_of (o : option string) : value :=
  match o with
  | Some s => VStr s
  | None => VNone
  end.

Definition cells_of_item (it : Item) : gmap string value :=
  <["nom" := VStr (nom it)]>
  (<["prix" := value_of (prix it)]>
  (<["adresse" := value_of (adresse it)]>
  (<["image_lien" := value_of (image_lien it)]> ∅))).

Definition DataFrame_of (all_data : list Item) : DataFrame :=
  match all_data with
  | [] => mkDF [] []
  | _ => mkDF ["nom"; "prix"; "adresse"; "image_lien"]
              (imap (λ i it, mkRow (Z.of_nat i) (cells_of_item it)) all_data)
  end.

(** The loop of [scrape_category] over the page numbers. *)
Fixpoint scrape_pages (base_url : string) (num_pages : Z) (page_nums : list Z)
    (all_data : list Item) : Scr (list Item) :=
  match page_nums with
  | [] => mret all_data
  | page_num :: rest =>
      let url :=
        if bool_decide (page_num = 1) then base_url
        else String.append base_url (String.append "?page=" (PyStr.of_Z page_num)) in
      page_data ← scrape_page url;
      let all_data := all_data ++ page_data in
      _ ← (if bool_decide (page_num < num_pages) then Py.sleep else mret tt);
      scrape_pages base_url num_pages rest all_data
  end.

Definition invalid_category_message (category : string) : string :=
  String.append "Cat"
    (String.append e_acute
      (String.append "gorie '"
        (String.append category
          "' non valide. Choisir parmi: ['chiens', 'moutons', 'poules-lapins-et-pigeons', 'autres-animaux']"))).

Definition scrape_category (category : string) (num_pages : Z) : Scr DataFrame :=
  match CATEGORIES !! category with
  | None => Py.raise (ValueError (invalid_category_message category))
  | Some base_url =>
      all_data ← scrape_pages base_url num_pages (seqZ 1 num_pages) [];
      let df := DataFrame_of all_data in
      match cleaned df with
      | Some df => mret df
      | None => Py.raise (LookupFailure "clean_beautifulsoup_data")
      end
  end.

(* ===================================================================== *)
(** ** Saving a table                                                     *)
(* ===================================================================== *)

(** The disk, as [save_to_csv] sees it: what writing a file at a path
    gives, nothing or the exception of the failure.  A write can fail
    before the target is opened (no such directory, no permission) or
    after (no space left); the boolean says whether it was opened. *)
Definition Disk := string → option (Exn * bool).

(** What a write leaves on the disk: a file with its path and the table
    it holds, without the index and in UTF-8, or, when the write failed
    after the target was opened, a file of which only the path is
    known. *)
Inductive Written :=
  | mkWritten (written_path : string) (written_table : DataFrame)
  | mkPartial (written_path : string).

(** [save_to_csv] writes files and may raise; the files written so far
    are kept when it raises. *)
Definition Sav (A : Type) : Type := Disk → list Written → (Exn + A) * list Written.

(** [df.to_csv(filepath, index=False, encoding='utf-8')] *)
Definition to_csv (df : DataFrame) (filepath : string) : Sav unit := λ disk out,
  match disk filepath with
  | Some (e, opened) =>
      (inl e, if opened then out ++ [mkPartial filepath] else out)
  | None => (inr tt, out ++ [mkWritten filepath df])
  end.

Definition a_grave : string := String "224" EmptyString.

Definition save_to_csv (df : DataFrame) (filename : string) : Sav string := λ disk out,
  if Frame.empty df
  then (inl (ValueError
               (String.append "Le DataFrame est vide, rien "
                  (String.append a_grave " sauvegarder"))), out)
  else
    let filepath :=
      String.append "data/scraped/" (String.append filename ".csv") in
    match to_csv df filepath disk out with
    | (inr _, out') => (inr filepath, out')
    | (inl e, out') => (inl e, out')
    end.

(* ===================================================================== *)
(** ** The cleaning rules, as the specification words them               *)
(* ===================================================================== *)

Global Instance Qlt_decision (x y : Q) : Decision (x < y)%Q.
Proof. destruct (Qlt_le_dec x y); [left | right]; [done | by apply Qle_not_lt]. Defined.

Module Spec.

Definition required : list string := ["nom"; "prix"; "adresse"; "image_lien"].

Definition on_request_keywords : list string :=
  ["demande"; String.append "n" (String.append e_acute "gociable");
   "contacter"; "appeler"].

(** The name of a row, when it has one. *)
Definition name_of (r : Row) : option string :=
  match cells r !! "nom" with
  | Some (VStr s) => Some s
  | _ => None
  end.

Definition has_name (r : Row) : Prop :=
  match name_of r with
  | Some s => s ≠ EmptyString
  | None => False
  end.

Global Instance has_name_dec r : Decision (has_name r).
Proof. unfold has_name. destruct (name_of r); apply _. Defined.

(** The price text of a row; null or absent gives none. *)
Definition price_text (r : Row) : option string :=
  match cells r !! "prix" with
  | Some (VStr s) => Some s
  | Some (VFloat x) => Some (Cell.to_str (VFloat x))
  | _ => None
  end.

Definition on_request (r : Row) : Prop :=
  match price_text r with
  | Some t => Exists (λ kw, PyStr.contains kw (PyStr.lower t)) on_request_keywords
  | None => False
  end.

Global Instance on_request_dec r : Decision (on_request r).
Proof. unfold on_request. destruct (price_text r); apply _. Defined.

(** Strip the spaces and the currency marker, then read the first run
    of digits. *)
Definition parse_price (t : string) : option Z :=
  PyStr.float_of_digits <$>
    PyStr.findall_digits_first (PyStr.replace "CFA" "" (PyStr.replace " " "" t)).

Definition parsed_price (r : Row) : option Z := price_text r ≫= parse_price.

(** The mean of the prices that parse, over a list of rows. *)
Definition mean_price (rs : list Row) : Q :=
  let ps := omap parsed_price rs in
  (inject_Z (foldr Z.add 0%Z ps) / inject_Z (Z.of_nat (length ps)))%Q.

(** A row of [rs] is an outlier when its price parses and is strictly
    less than half the mean over [rs]. *)
Definition outlier (rs : list Row) (r : Row) : Prop :=
  match parsed_price r with
  | Some p => (inject_Z p < mean_price rs / 2)%Q
  | None => False
  end.

Global Instance outlier_dec rs r : Decision (outlier rs r).
Proof. unfold outlier. destruct (parsed_price r); apply _. Defined.

(** How many of the names seen so far are equal to [n]. *)
Definition occurrences (n : string) (seen : list string) : nat :=
  length (filter (λ m, m = n) seen).

(** The first occurrence of a name is left as it is, its k-th repeat
    gets [" k"] appended. *)
Definition numbered_name (seen : list string) (n : string) : string :=
  match occurrences n seen with
  | O => n
  | S k => String.append n (String.append " " (PyStr.of_nat (S k)))
  end.

Fixpoint numbered (seen names : list string) : list string :=
  match names with
  | [] => []
  | n :: rest => numbered_name seen n :: numbered (seen ++ [n]) rest
  end.

Definition rename (r : Row) (n : string) : Row :=
  mkRow (label r) (<["nom" := VStr n]> (cells r)).

Definition step1 (cols : list string) (rs : list Row) : list Row :=
  if decide ("nom" ∈ cols) then filter has_name rs else rs.

Definition step2 (cols : list string) (rs : list Row) : list Row :=
  if decide ("prix" ∈ cols) then filter (λ r, ¬ on_request r) rs else rs.

Definition step3 (cols : list string) (rs : list Row) : list Row :=
  if decide ("prix" ∈ cols) then filter (λ r, ¬ outlier rs r) rs else rs.

Definition step4 (cols : list string) (rs : list Row) : list Row :=
  if decide ("nom" ∈ cols)
  then zip_with rename rs (numbered [] (omap name_of rs))
  else rs.

Definition kept_columns (cols : list string) : list string :=
  filter (λ c, c ∈ cols) required.

Definition step5 (cols : list string) (rs : list Row) : list Row :=
  imap (λ i r, mkRow (Z.of_nat i)
                 (filter (λ kv, kv.1 ∈ kept_columns cols) (cells r))) rs.

(** The rows that reach the numbering of the names. *)
Definition survivors (d : DataFrame) : list Row :=
  step3 (columns d) (step2 (columns d) (step1 (columns d) (rows d))).

Definition clean (d : DataFrame) : DataFrame :=
  mkDF (kept_columns (columns d))
       (step5 (columns d) (step4 (columns d) (survivors d))).

End Spec.

(** The prices step 3 reads from [rs] are held exactly by float64, and
    so are their sum and every partial sum: the sum is below 2^53.  On
    such rows the comparison with half the float64 mean selects the same
    rows as the comparison with half the exact mean. *)
Definition exact_floats (rs : list Row) : Prop :=
  foldr Z.add 0 (omap Spec.parsed_price rs) < 2 ^ 53.

Global Instance exact_floats_dec rs : Decision (exact_floats rs).
Proof. unfold exact_floats. apply _. Defined.

(** What the cleaner returns.  An empty frame is returned as it is.
    When the frame has a price column and the name filter leaves no
    row, the mask of step 2 selects no column and the result has none.
    Otherwise the result is the frame the rules describe. *)
Definition clean_result (d : DataFrame) : DataFrame :=
  if Frame.empty d then d
  else if bool_decide ("prix" ∈ columns d ∧ Spec.step1 (columns d) (rows d) = [])
       then mkDF [] []
       else Spec.clean d.

(** What the cleaner never writes in a row: the price text, the
    address and the image link. *)
Definition payload (r : Row) : option value * option value * option value :=
  (cells r !! "prix", cells r !! "adresse", cells r !! "image_lien").

(* ===================================================================== *)
(** ** The frame each step leaves in [df_clean]                           *)
(* ===================================================================== *)

(** The steps of the cleaner read on frame values: what the variable
    [df_clean] holds after a step, from what it held before. *)
Module Val.

Definition drop_unnamed (d : DataFrame) : DataFrame :=
  if bool_decide ("nom" ∈ columns d) then
    mkDF (columns d)
      (Frame.select
         (map (λ v, Cell.notna v && Cell.str_len_positive v) (Frame.column "nom" d))
         (rows d))
  else d.

Definition drop_on_request (d : DataFrame) : DataFrame :=
  if bool_decide ("prix" ∈ columns d) then
    match map keyword_free (Frame.column "prix" d) with
    | [] => Frame.project [] d
    | mask => mkDF (columns d) (Frame.select mask (rows d))
    end
  else d.

Definition drop_outliers (d : DataFrame) : DataFrame :=
  if bool_decide ("prix" ∈ columns d) && bool_decide (0 < length (rows d))%nat then
    let d1 := Frame.set_column "prix_num" (map prix_num_of (Frame.column "prix" d)) d in
    let prix_num := Frame.column "prix_num" d1 in
    let prix_valides := Cell.dropna prix_num in
    let d2 :=
      if bool_decide (0 < length prix_valides)%nat then
        mkDF (columns d1)
          (Frame.select
             (map (λ v, Cell.isna v || Cell.ge v (Cell.mean prix_valides / 2)%Q) prix_num)
             (rows d1))
      else d1 in
    Frame.drop "prix_num" d2
  else d.

Definition suffix_duplicates (d : DataFrame) : DataFrame :=
  if bool_decide ("nom" ∈ columns d) then
    Frame.set_column "nom" (suffix_loop (Frame.column "nom" d) ∅ []) d
  else d.

Definition keep_required (d : DataFrame) : DataFrame :=
  Frame.reset_index
    (Frame.project (filter (λ col, col ∈ columns d) columns_to_keep) d).

Definition clean (d : DataFrame) : DataFrame :=
  if Frame.empty d then d
  else keep_required (suffix_duplicates (drop_outliers (drop_on_request (drop_unnamed d)))).

End Val.

(** A row without its temporary numeric price. *)
Definition without_prix_num (r : Row) : Row :=
  mkRow (label r) (delete "prix_num" (cells r)).

(** The value step 3 computes for the price of a row. *)
Definition prix_num_row (r : Row) : value := prix_num_of (Frame.cell "prix" r).

(** The dictionary of step 4 agrees with the names seen so far: a name
    seen k+1 times is mapped to k, a name not seen is absent. *)
Definition counts_agree (nom_counts : gmap value nat) (seen : list string) : Prop :=
  ∀ n, nom_counts !! VStr n =
       match Spec.occurrences n seen with
       | O => None
       | S k => Some k
       end.

(** [Inv s0 s r d]: the store [s] extends [s0], and [r] is a reference
    allocated after [s0] that holds [d]. *)
Definition Inv (s0 s : Store) (r : loc) (d : DataFrame) : Prop :=
  s0 `prefix_of` s ∧ (length s0 ≤ r)%nat ∧ s !! r = Some d.



(* ===================================================================== *)
(** ** What a crawl should collect, as the specification words it         *)
(* ===================================================================== *)

Module Crawl.

(** The detail URL of a container, when its anchor has an href. *)
Definition detail_url (c : Container) : option string :=
  a ← find_a c; href ← attrs a !! "href";
  Some (String.append "https://sn.coinafrique.com" href).

(** The thumbnail of a container. *)
Definition image_of (c : Container) : option string :=
  img ← find_img c; attrs img !! "src".

(** A GET that succeeds: the site answers, and not with a 4xx or 5xx
    status. *)
Definition fetched (w : World) (url : string) : option Soup :=
  match w url with
  | inr resp =>
      if bool_decide (400 ≤ status_code resp < 600) then None
      else Some (content resp)
  | inl _ => None
  end.

Definition trimmed_text (t : option Tag) : option string :=
  (λ t, PyStr.strip (text t)) <$> t.

(** The extraction succeeds when none of the three lookups raises:
    name, price text and address. *)
Definition extracted (soup : Soup)
    : option (option string * option string * option string) :=
  match find_title soup, find_price soup, find_address soup with
  | inr title, inr price, inr None =>
      Some (trimmed_text title, trimmed_text price, None)
  | inr title, inr price, inr (Some span) =>
      match attrs span !! "data-address" with
      | Some a => Some (trimmed_text title, trimmed_text price, Some a)
      | None => None
      end
  | _, _, _ => None
  end.

(** The item a container yields: its detail page is fetched, the
    extraction succeeds and a name was found.  [None] is an item that
    is skipped. *)
Definition item_of (w : World) (c : Container) : option Item :=
  url ← detail_url c;
  soup ← fetched w url;
  fields ← extracted soup;
  match fields with
  | (Some (String ch n), p, a) => Some (mkItem (String ch n) p a (image_of c))
  | _ => None
  end.

(** The URL of a listing page. *)
Definition page_url (base_url : string) (page_num : Z) : string :=
  if bool_decide (page_num = 1) then base_url
  else String.append base_url (String.append "?page=" (PyStr.of_Z page_num)).

(** The items of a listing page that is fetched: those of its
    containers, in document order. *)
Definition page_items (w : World) (url : string) : list Item :=
  match fetched w url with
  | Some soup => omap (item_of w) (find_all_containers soup)
  | None => []
  end.

End Crawl.

(* ===================================================================== *)
(** ** What a crawl logs                                                  *)
(* ===================================================================== *)

Module Log.

(** A container with a link costs one sleep and one request, in that
    order; a container without a link costs nothing. *)
Definition container_events (c : Container) : list Event :=
  match Crawl.detail_url c with
  | Some url => [EvSleep; EvGet url]
  | None => []
  end.

(** A listing page costs its own request, then what its containers
    cost when it is fetched. *)
Definition page_events (w : World) (url : string) : list Event :=
  EvGet url ::
  match Crawl.fetched w url with
  | Some soup => concat (map container_events (find_all_containers soup))
  | None => []
  end.

(** The pages of a crawl, with a sleep after each page but the last. *)
Definition crawl_events (w : World) (base_url : string) (num_pages : Z)
    (pages : list Z) : list Event :=
  concat (map (λ p, page_events w (Crawl.page_url base_url p) ++
                    if bool_decide (p < num_pages) then [EvSleep] else [])
            pages).

(** No two requests follow each other without a sleep between them. *)
Fixpoint paced (l : list Event) : bool :=
  match l with
  | [] => true
  | e :: rest =>
      match e, rest with
      | EvGet _, EvGet _ :: _ => false
      | _, _ => paced rest
      end
  end.

(** The site every request goes to. *)
Definition site : string := "https://sn.coinafrique.com".

(** The two prefixes [scrape_page] puts before the text of an exception
    it raises again. *)
Definition http_error_prefix : string :=
  String.append "Erreur lors de la requ" (String.append e_circ "te HTTP: ").

Definition scraping_error_prefix : string := "Erreur lors du scraping: ".

End Log.

(* ===================================================================== *)
(** ** A sample site                                                      *)
(* ===================================================================== *)

Definition sample_tag (t : string) : Tag := mkTag ∅ t.

(** An ad whose detail page has a title and an address, and whose
    price lookup raises. *)
Definition broken_detail : Soup :=
  mkSoup []
    (inr (Some (sample_tag "Rex")))
    (inl (LookupFailure "price"))
    (inr (Some (mkTag (<["data-address" := "Dakar"]> ∅) ""))).

Definition good_detail : Soup :=
  mkSoup []
    (inr (Some (sample_tag " Medor ")))
    (inr (Some (sample_tag "25 000 CFA")))
    (inr None).

Definition sample_container (href : string) : Container :=
  mkContainer (Some (mkTag (<["href" := href]> ∅) "")) None.

Definition sample_listing : Soup :=
  mkSoup [sample_container "/annonce/1"; sample_container "/annonce/2"]
    (inr None) (inr None) (inr None).

Definition sample_site : World := λ url,
  if bool_decide (url = "https://sn.coinafrique.com/categorie/chiens")
  then inr (mkResponse 200 "OK" url sample_listing)
  else if bool_decide (url = "https://sn.coinafrique.com/annonce/1")
  then inr (mkResponse 200 "OK" url broken_detail)
  else if bool_decide (url = "https://sn.coinafrique.com/annonce/2")
  then inr (mkResponse 200 "OK" url good_detail)
  else inl (RequestException "unreachable").

(** A disk that takes every file. *)
Definition sample_disk : Disk := λ _, None.

(** A site that answers nothing. *)
Definition offline_site : World := λ _, inl (RequestException "unreachable").

(* ===================================================================== *)
(** ** Sample frames                                                      *)
(* ===================================================================== *)

(** A scraped row: name, price text, no address, no image. *)
Definition sample_row (i : Z) (n p : value) : Row :=
  mkRow i (<["nom" := n]> (<["prix" := p]>
          (<["adresse" := VNone]> (<["image_lien" := VNone]> ∅)))).

(** Six scraped ads: a repeated name, a missing price, a price on
    request, a teaser price and an empty name. *)
Definition sample_raw : DataFrame :=
  mkDF ["nom"; "prix"; "adresse"; "image_lien"]
    [sample_row 0 (VStr "Chien") (VStr "25 000 CFA");
     sample_row 1 (VStr "Chien") VNone;
     sample_row 2 (VStr "Chat") (VStr "Prix sur DEMANDE");
     sample_row 3 (VStr "Chien") (VStr "100 CFA");
     sample_row 4 (VStr "") (VStr "1");
     sample_row 5 (VStr "Chien") (VStr "30000")].




(* ===================================================================== *)
(** ** Running the store operations                                       *)
(* ===================================================================== *)

Section store_runs.
Implicit Types (s : Store) (r : loc) (d : DataFrame).

Lemma bind_run {A B} (m : St A) (f : A → St B) s x s' :
  m s = Some (x, s') → (m ≫= f) s = f x s'.
Proof. intros H. unfold mbind, St_bind. by rewrite H. Qed.

Lemma deref_run s r d : s !! r = Some d → Ref.deref r s = Some (d, s).
Proof. intros H. unfold Ref.deref. by rewrite H. Qed.

Lemma get_columns_run s r d :
  s !! r = Some d → Ref.get_columns r s = Some (columns d, s).
Proof. intros H. unfold Ref.get_columns. by erewrite bind_run by by apply deref_run. Qed.

Lemma len_run s r d :
  s !! r = Some d → Ref.len r s = Some (length (rows d), s).
Proof. intros H. unfold Ref.len. by erewrite bind_run by by apply deref_run. Qed.

Lemma getitem_run s r d c :
  s !! r = Some d → c ∈ columns d →
  Ref.getitem r c s = Some (Frame.column c d, s).
Proof.
  intros H Hc. unfold Ref.getitem.
  erewrite bind_run by by apply deref_run.
  by rewrite bool_decide_eq_true_2.
Qed.

Lemma Inv_alloc (s0 : Store) s r d d' : Inv s0 s r d → Inv s0 (s ++ [d']) (length s) d'.
Proof.
  intros (Hp & Hr & Hl). split_and!.
  - by apply prefix_app_r.
  - by apply prefix_length.
  - by rewrite lookup_app_r, Nat.sub_diag.
Qed.

Lemma Inv_assign (s0 : Store) s r d d' : Inv s0 s r d → Inv s0 (<[r:=d']> s) r d'.
Proof.
  intros ([e ->] & Hr & Hl). split_and!.
  - rewrite insert_app_r_alt by done. by eexists.
  - done.
  - apply list_lookup_insert_eq. by eapply lookup_lt_Some.
Qed.

Lemma getitem_mask_run (s0 : Store) s r d mask :
  Inv s0 s r d → length mask = length (rows d) →
  ∃ r' s', Ref.getitem_mask r mask s = Some (r', s') ∧
           Inv s0 s' r' (mkDF (columns d) (Frame.select mask (rows d))).
Proof.
  intros HI Hm. pose proof HI as (_ & _ & Hl).
  eexists _, _. split; [| by eapply Inv_alloc].
  unfold Ref.getitem_mask. erewrite bind_run by by apply deref_run.
  by rewrite bool_decide_eq_true_2.
Qed.

Lemma setitem_run (s0 : Store) s r d c vals :
  Inv s0 s r d → length vals = length (rows d) →
  ∃ s', Ref.setitem r c vals s = Some (tt, s') ∧
        Inv s0 s' r (Frame.set_column c vals d).
Proof.
  intros HI Hm. pose proof HI as (_ & _ & Hl).
  eexists. split; [| by eapply Inv_assign].
  unfold Ref.setitem. erewrite bind_run by by apply deref_run.
  rewrite bool_decide_eq_true_2 by done. unfold Ref.assign.
  rewrite bool_decide_eq_true_2; [done |]. by eapply lookup_lt_Some.
Qed.

Lemma drop_run (s0 : Store) s r d c :
  Inv s0 s r d → c ∈ columns d →
  ∃ r' s', Ref.drop r c s = Some (r', s') ∧ Inv s0 s' r' (Frame.drop c d).
Proof.
  intros HI Hc. pose proof HI as (_ & _ & Hl).
  eexists _, _. split; [| by eapply Inv_alloc].
  unfold Ref.drop. erewrite bind_run by by apply deref_run.
  by rewrite bool_decide_eq_true_2.
Qed.

Lemma getitem_list_run (s0 : Store) s r d cols :
  Inv s0 s r d → Forall (λ c, c ∈ columns d) cols →
  ∃ r' s', Ref.getitem_list r cols s = Some (r', s') ∧
           Inv s0 s' r' (Frame.project cols d).
Proof.
  intros HI Hc. pose proof HI as (_ & _ & Hl).
  eexists _, _. split; [| by eapply Inv_alloc].
  unfold Ref.getitem_list. erewrite bind_run by by apply deref_run.
  by rewrite bool_decide_eq_true_2.
Qed.

Lemma reset_index_run (s0 : Store) s r d :
  Inv s0 s r d →
  ∃ r' s', Ref.reset_index r s = Some (r', s') ∧
           Inv s0 s' r' (Frame.reset_index d).
Proof.
  intros HI. pose proof HI as (_ & _ & Hl).
  eexists _, _. split; [| by eapply Inv_alloc].
  unfold Ref.reset_index. by erewrite bind_run by by apply deref_run.
Qed.

End store_runs.

(* ===================================================================== *)
(** ** Masks and filters                                                  *)
(* ===================================================================== *)

Lemma select_filter {A} (p : A → bool) (P : A → Prop) `{!∀ x, Decision (P x)}
    (l : list A) :
  (∀ x, p x ↔ P x) → Frame.select (map p l) l = filter P l.
Proof.
  intros Hp. induction l as [| x l IH]; [done |]. simpl.
  rewrite IH. destruct (p x) eqn:E.
  - rewrite filter_cons_True; [done |]. apply Hp. rewrite E. exact I.
  - rewrite filter_cons_False; [done |]. rewrite <- Hp, E. intros [].
Qed.

Lemma column_mask (f : value → bool) c d :
  map f (Frame.column c d) = map (λ r, f (Frame.cell c r)) (rows d).
Proof. unfold Frame.column. by rewrite map_map. Qed.

Lemma named_mask r :
  Cell.notna (Frame.cell "nom" r) && Cell.str_len_positive (Frame.cell "nom" r)
  ↔ Spec.has_name r.
Proof.
  unfold Frame.cell, Spec.has_name, Spec.name_of.
  destruct (cells r !! "nom") as [[| | s | x] |]; simpl; try tauto.
  rewrite bool_decide_spec. destruct s; simpl.
  - split; [lia | done].
  - split; [done | lia].
Qed.

Lemma keywords_agree : keywords = Spec.on_request_keywords.
Proof. reflexivity. Qed.

Lemma keyword_free_text (t : string) :
  negb (existsb (λ kw, PyStr.contains kw (PyStr.lower t)) keywords)
  ↔ ¬ Exists (λ kw, PyStr.contains kw (PyStr.lower t)) Spec.on_request_keywords.
Proof.
  rewrite <- keywords_agree, negb_True. apply not_iff_compat.
  rewrite Exists_exists, Is_true_true, existsb_exists.
  split; intros (kw & Hin & Hc); exists kw.
  - split; [by apply list_elem_of_In | by apply Is_true_true].
  - split; [by apply list_elem_of_In | by apply Is_true_true].
Qed.

Lemma keyword_mask r : keyword_free (Frame.cell "prix" r) ↔ ¬ Spec.on_request r.
Proof.
  unfold Frame.cell, Spec.on_request, Spec.price_text.
  destruct (cells r !! "prix") as [[| | s | x] |]; simpl;
    try (vm_compute; tauto); apply keyword_free_text.
Qed.

(* ===================================================================== *)
(** ** The steps of the cleaner on the store                              *)
(* ===================================================================== *)

Lemma length_column c d : length (Frame.column c d) = length (rows d).
Proof. unfold Frame.column. by rewrite length_map. Qed.

Lemma length_suffix_loop noms counts acc :
  length (suffix_loop noms counts acc) = (length acc + length noms)%nat.
Proof.
  revert counts acc. induction noms as [| n noms IH]; intros counts acc; simpl.
  - lia.
  - destruct (counts !! n); rewrite IH, length_app; simpl; lia.
Qed.

Section step_runs.
Context (s0 : Store).
Implicit Types (s : Store) (r : loc) (d : DataFrame).

Lemma drop_unnamed_run s r d :
  Inv s0 s r d →
  ∃ r' s', drop_unnamed r s = Some (r', s') ∧ Inv s0 s' r' (Val.drop_unnamed d).
Proof.
  intros HI. pose proof HI as (_ & _ & Hl).
  unfold drop_unnamed, Val.drop_unnamed.
  erewrite bind_run by by apply get_columns_run.
  case_bool_decide as Hc; [| by eexists _, _].
  erewrite bind_run by by apply getitem_run.
  apply getitem_mask_run; [done |]. by rewrite length_map, length_column.
Qed.

Lemma drop_on_request_run s r d :
  Inv s0 s r d →
  ∃ r' s', drop_on_request r s = Some (r', s') ∧ Inv s0 s' r' (Val.drop_on_request d).
Proof.
  intros HI. pose proof HI as (_ & _ & Hl).
  unfold drop_on_request, Val.drop_on_request.
  erewrite bind_run by by apply get_columns_run.
  case_bool_decide as Hc; [| by eexists _, _].
  erewrite bind_run by by apply getitem_run.
  unfold Ref.getitem_applied.
  destruct (map keyword_free (Frame.column "prix" d)) as [| b mask] eqn:Em.
  - apply getitem_list_run; [done | constructor].
  - apply getitem_mask_run; [done |].
    by rewrite <- Em, length_map, length_column.
Qed.

Lemma set_column_has c vals d : c ∈ columns (Frame.set_column c vals d).
Proof.
  unfold Frame.set_column. simpl. case_bool_decide; [done |].
  apply elem_of_app. right. by apply list_elem_of_singleton.
Qed.

Lemma length_set_column c vals d :
  length vals = length (rows d) →
  length (rows (Frame.set_column c vals d)) = length (rows d).
Proof. intros H. unfold Frame.set_column. simpl. rewrite length_zip_with. lia. Qed.

Lemma drop_outliers_run s r d :
  Inv s0 s r d →
  ∃ r' s', drop_outliers r s = Some (r', s') ∧ Inv s0 s' r' (Val.drop_outliers d).
Proof.
  intros HI. pose proof HI as (_ & _ & Hl).
  unfold drop_outliers, Val.drop_outliers.
  erewrite bind_run by by apply get_columns_run.
  erewrite bind_run by by apply len_run.
  case_bool_decide as Hc; simpl; [| by eexists _, _].
  case_bool_decide as Hn; simpl; [| by eexists _, _].
  erewrite bind_run by by apply getitem_run.
  set (vals := map prix_num_of (Frame.column "prix" d)).
  assert (length vals = length (rows d)) as Hlen
    by (unfold vals; by rewrite length_map, length_column).
  destruct (setitem_run s0 s r d "prix_num" vals HI Hlen) as (s1 & Hset & HI1).
  erewrite bind_run by exact Hset.
  pose proof HI1 as (_ & _ & Hl1).
  erewrite bind_run by (apply getitem_run; [exact Hl1 | apply set_column_has]).
  set (d1 := Frame.set_column "prix_num" vals d) in *.
  assert ("prix_num" ∈ columns d1) as Hin by apply set_column_has.
  case_bool_decide as Hv.
  - edestruct (getitem_mask_run s0 s1 r d1) as (r2 & s2 & Hm & HI2); [exact HI1 | |].
    { by rewrite length_map, length_column. }
    erewrite bind_run by exact Hm.
    apply drop_run; [exact HI2 | exact Hin].
  - unfold mbind at 1, St_bind, mret, St_ret. simpl.
    apply drop_run; [exact HI1 | exact Hin].
Qed.

Lemma suffix_duplicates_run s r d :
  Inv s0 s r d →
  ∃ r' s', suffix_duplicates r s = Some (r', s') ∧ Inv s0 s' r' (Val.suffix_duplicates d).
Proof.
  intros HI. pose proof HI as (_ & _ & Hl).
  unfold suffix_duplicates, Val.suffix_duplicates.
  erewrite bind_run by by apply get_columns_run.
  case_bool_decide as Hc; [| by eexists _, _].
  erewrite bind_run by by apply getitem_run.
  destruct (setitem_run s0 s r d "nom" (suffix_loop (Frame.column "nom" d) ∅ []))
    as (s1 & Hset & HI1); [exact HI | |].
  { by rewrite length_suffix_loop, length_column. }
  erewrite bind_run by exact Hset. by eexists _, _.
Qed.

Lemma keep_required_run s r d :
  Inv s0 s r d →
  ∃ r' s', keep_required r s = Some (r', s') ∧ Inv s0 s' r' (Val.keep_required d).
Proof.
  intros HI. pose proof HI as (_ & _ & Hl).
  unfold keep_required, Val.keep_required.
  erewrite bind_run by by apply get_columns_run.
  destruct (getitem_list_run s0 s r d
              (filter (λ col, col ∈ columns d) columns_to_keep))
    as (r1 & s1 & Hp & HI1); [exact HI | |].
  { apply Forall_forall. intros c Hc. by apply list_elem_of_filter in Hc as [? _]. }
  erewrite bind_run by exact Hp.
  by apply reset_index_run.
Qed.

End step_runs.

(** The cleaner returns in every store that holds its argument: the
    store it leaves extends the one it found, and the reference it
    returns holds the cleaned frame. *)
Lemma clean_run (s : Store) (df : loc) (d : DataFrame) :
  s !! df = Some d →
  ∃ r s', clean_beautifulsoup_data df s = Some (r, s') ∧
          s `prefix_of` s' ∧ s' !! r = Some (Val.clean d).
Proof.
  intros Hl. unfold clean_beautifulsoup_data, Val.clean.
  erewrite bind_run by by apply deref_run.
  destruct (Frame.empty d); [by eexists _, _ |].
  unfold Ref.copy. erewrite (bind_run (_ ≫= _)); cycle 1.
  { erewrite bind_run by by apply deref_run. reflexivity. }
  assert (Inv s (s ++ [d]) (length s) d) as HI0.
  { split_and!; [by apply prefix_app_r | done |].
    by rewrite lookup_app_r, Nat.sub_diag. }
  destruct (drop_unnamed_run s _ _ _ HI0) as (r1 & s1 & E1 & HI1).
  erewrite bind_run by exact E1.
  destruct (drop_on_request_run s _ _ _ HI1) as (r2 & s2 & E2 & HI2).
  erewrite bind_run by exact E2.
  destruct (drop_outliers_run s _ _ _ HI2) as (r3 & s3 & E3 & HI3).
  erewrite bind_run by exact E3.
  destruct (suffix_duplicates_run s _ _ _ HI3) as (r4 & s4 & E4 & HI4).
  erewrite bind_run by exact E4.
  destruct (keep_required_run s _ _ _ HI4) as (r5 & s5 & E5 & (Hp & _ & Hl5)).
  by eexists _, _.
Qed.

Lemma cleaned_val d : cleaned d = Some (Val.clean d).
Proof.
  unfold cleaned.
  destruct (clean_run [d] O d eq_refl) as (r & s' & -> & _ & Hl). done.
Qed.

(* ===================================================================== *)
(** ** The steps on frame values are the rules of the specification       *)
(* ===================================================================== *)

Lemma map_fmap {A B} (f : A → B) (l : list A) : map f l = f <$> l.
Proof. reflexivity. Qed.

Lemma select_map {A B} (mask : list bool) (h : A → B) (l : list A) :
  Frame.select mask (map h l) = map h (Frame.select mask l).
Proof.
  revert mask. induction l as [| x l IH]; intros [| b mask]; simpl; try done.
  destruct b; simpl; by rewrite IH.
Qed.

Lemma zip_with_map_self {A B C} (f : A → B → C) (g : A → B) (l : list A) :
  zip_with f l (map g l) = map (λ x, f x (g x)) l.
Proof. induction l as [| x l IH]; simpl; [done | by rewrite IH]. Qed.

Lemma zip_with_map_snd {A B B' C} (f : A → B → C) (g : B' → B) l k :
  zip_with f l (map g k) = zip_with (λ x y, f x (g y)) l k.
Proof.
  revert k. induction l as [| x l IH]; intros [| y k]; simpl; try done.
  by rewrite IH.
Qed.

Lemma drop_unnamed_val d :
  Val.drop_unnamed d = mkDF (columns d) (Spec.step1 (columns d) (rows d)).
Proof.
  unfold Val.drop_unnamed, Spec.step1. destruct d as [cols rs]; simpl.
  case_bool_decide; case_decide; try done.
  by rewrite column_mask, (select_filter _ Spec.has_name) by apply named_mask.
Qed.

Lemma drop_on_request_val d :
  "prix" ∈ columns d → rows d = [] ∨
  Val.drop_on_request d = mkDF (columns d) (Spec.step2 (columns d) (rows d)).
Proof.
  unfold Val.drop_on_request, Spec.step2. destruct d as [cols [| r rs]]; simpl.
  - intros _. by left.
  - intros Hp. right. rewrite bool_decide_eq_true_2, decide_True by done.
    change (Frame.column "prix" {| columns := cols; rows := r :: rs |})
      with (map (Frame.cell "prix") (r :: rs)).
    rewrite map_map.
    assert (Frame.select (map (λ x, keyword_free (Frame.cell "prix" x)) (r :: rs))
              (r :: rs) = filter (λ r, ¬ Spec.on_request r) (r :: rs)) as <-
      by (apply select_filter; apply keyword_mask).
    done.
Qed.

Lemma drop_on_request_no_prix d :
  "prix" ∉ columns d →
  Val.drop_on_request d = mkDF (columns d) (Spec.step2 (columns d) (rows d)).
Proof.
  intros Hp. unfold Val.drop_on_request, Spec.step2.
  rewrite bool_decide_eq_false_2, decide_False by done. by destruct d.
Qed.

Lemma drop_on_request_none cols :
  "prix" ∈ cols → Val.drop_on_request (mkDF cols []) = mkDF [] [].
Proof.
  intros Hp. unfold Val.drop_on_request. simpl.
  by rewrite bool_decide_eq_true_2.
Qed.

(** *** Step 3 *)

Lemma prix_num_parsed r :
  prix_num_row r =
  match Spec.parsed_price r with
  | Some p => VFloat p
  | None => VNaN
  end.
Proof.
  unfold prix_num_row, Spec.parsed_price, Spec.price_text, Frame.cell.
  destruct (cells r !! "prix") as [[| | s | x] |]; simpl; try reflexivity.
  - unfold prix_num_of, Spec.parse_price. simpl.
    by destruct (PyStr.findall_digits_first _).
  - unfold prix_num_of, Spec.parse_price.
    by destruct (PyStr.findall_digits_first _).
Qed.

Lemma dropna_parsed rs :
  Cell.dropna (map prix_num_row rs) = omap Spec.parsed_price rs.
Proof.
  induction rs as [| r rs IH]; [done |]. simpl.
  rewrite prix_num_parsed. unfold Cell.dropna in *. simpl.
  destruct (Spec.parsed_price r); simpl; by rewrite IH.
Qed.

Lemma outlier_mask rs r :
  Cell.isna (prix_num_row r) || Cell.ge (prix_num_row r) (Spec.mean_price rs / 2)%Q
  ↔ ¬ Spec.outlier rs r.
Proof.
  rewrite prix_num_parsed. unfold Spec.outlier.
  destruct (Spec.parsed_price r) as [p |]; simpl; [| tauto].
  rewrite Is_true_true, Qle_bool_iff. split.
  - apply Qle_not_lt.
  - apply Qnot_lt_le.
Qed.

Lemma no_price_no_outlier base rs :
  omap Spec.parsed_price rs = [] → filter (λ r, ¬ Spec.outlier base r) rs = rs.
Proof.
  induction rs as [| r rs IH]; intros Hno; [done |].
  simpl in Hno. destruct (Spec.parsed_price r) as [p |] eqn:E; [done |].
  rewrite filter_cons_True.
  - by rewrite IH.
  - unfold Spec.outlier. rewrite E. tauto.
Qed.

Lemma cell_set_cell c r v : Frame.cell c (Frame.set_cell c r v) = v.
Proof. unfold Frame.cell, Frame.set_cell. simpl. by rewrite lookup_insert_eq. Qed.

Lemma without_set_prix_num r v :
  mkRow (label (Frame.set_cell "prix_num" r v))
        (delete "prix_num" (cells (Frame.set_cell "prix_num" r v)))
  = without_prix_num r.
Proof. unfold Frame.set_cell, without_prix_num. simpl. by rewrite delete_insert_eq. Qed.

Lemma filter_drop_column c cols :
  filter (λ x, x ≠ c) (if bool_decide (c ∈ cols) then cols else cols ++ [c])
  = filter (λ x : string, x ≠ c) cols.
Proof.
  case_bool_decide; [done |].
  rewrite filter_app, filter_cons_False, filter_nil by tauto.
  by rewrite app_nil_r.
Qed.

Lemma drop_outliers_val d :
  "prix" ∈ columns d → rows d ≠ [] →
  Val.drop_outliers d =
  mkDF (filter (λ x, x ≠ "prix_num") (columns d))
       (map without_prix_num (Spec.step3 (columns d) (rows d))).
Proof.
  intros Hc Hr. unfold Val.drop_outliers, Spec.step3.
  destruct d as [cols rs]; simpl in *.
  rewrite !bool_decide_eq_true_2 by (done || (destruct rs; [done | simpl; lia])).
  rewrite decide_True by done. simpl.
  unfold Frame.set_column, Frame.column, Frame.drop. simpl.
  set (h := λ r, Frame.set_cell "prix_num" r (prix_num_row r)).
  assert (zip_with (Frame.set_cell "prix_num") rs
            (map prix_num_of (map (Frame.cell "prix") rs)) = map h rs) as ->.
  { rewrite map_map. apply (zip_with_map_self _ prix_num_row). }
  assert (map (Frame.cell "prix_num") (map h rs) = map prix_num_row rs) as ->.
  { rewrite map_map. apply map_ext. intros r. apply cell_set_cell. }
  assert (∀ l, map (λ r, mkRow (label r) (delete "prix_num" (cells r))) (map h l)
               = map without_prix_num l) as Hdrop.
  { intros l. rewrite map_map. apply map_ext. intros r. apply without_set_prix_num. }
  rewrite dropna_parsed.
  case_bool_decide as Hv; simpl; rewrite filter_drop_column; f_equal.
  - rewrite select_map, Hdrop. f_equal. rewrite map_map.
    apply (select_filter _ (λ r, ¬ Spec.outlier rs r)).
    intros r. apply outlier_mask.
  - rewrite Hdrop. f_equal. symmetry. apply no_price_no_outlier.
    destruct (omap Spec.parsed_price rs); [done | simpl in Hv; lia].
Qed.

(** *** Step 4 *)

Lemma occurrences_snoc n seen m :
  Spec.occurrences n (seen ++ [m])
  = (Spec.occurrences n seen + if decide (m = n) then 1 else 0)%nat.
Proof.
  unfold Spec.occurrences. rewrite filter_app, length_app. f_equal.
  rewrite filter_cons. by case_decide.
Qed.

Lemma counts_agree_empty : counts_agree ∅ [].
Proof. intros n. by rewrite lookup_empty. Qed.

Lemma counts_agree_repeat counts seen n k :
  counts_agree counts seen → counts !! VStr n = Some k →
  counts_agree (<[VStr n := S k]> counts) (seen ++ [n]).
Proof.
  intros Hag Hk m. rewrite occurrences_snoc.
  destruct (decide (n = m)) as [-> | Hne].
  - rewrite lookup_insert_eq. specialize (Hag m). rewrite Hk in Hag.
    destruct (Spec.occurrences m seen) as [| j]; [done |].
    injection Hag as ->. by rewrite Nat.add_1_r.
  - rewrite lookup_insert_ne by congruence. rewrite Nat.add_0_r. apply Hag.
Qed.

Lemma counts_agree_first counts seen n :
  counts_agree counts seen → counts !! VStr n = None →
  counts_agree (<[VStr n := O]> counts) (seen ++ [n]).
Proof.
  intros Hag Hk m. rewrite occurrences_snoc.
  destruct (decide (n = m)) as [-> | Hne].
  - rewrite lookup_insert_eq. specialize (Hag m). rewrite Hk in Hag.
    by destruct (Spec.occurrences m seen).
  - rewrite lookup_insert_ne by congruence. rewrite Nat.add_0_r. apply Hag.
Qed.

Lemma suffix_loop_numbered names seen counts acc :
  counts_agree counts seen →
  suffix_loop (map VStr names) counts acc
  = acc ++ map VStr (Spec.numbered seen names).
Proof.
  revert seen counts acc.
  induction names as [| n names IH]; intros seen counts acc Hag; simpl.
  - by rewrite app_nil_r.
  - pose proof (Hag n) as Hn. unfold Spec.numbered_name.
    destruct (counts !! VStr n) as [k |] eqn:Hk.
    + destruct (Spec.occurrences n seen) as [| j]; [done |].
      injection Hn as ->.
      rewrite (IH (seen ++ [n])) by by apply counts_agree_repeat.
      by rewrite <- app_assoc.
    + destruct (Spec.occurrences n seen) as [| j]; [| done].
      rewrite (IH (seen ++ [n])) by by apply counts_agree_first.
      by rewrite <- app_assoc.
Qed.

Lemma has_name_cell r :
  Spec.has_name r →
  ∃ s, Spec.name_of r = Some s ∧ Frame.cell "nom" r = VStr s ∧ s ≠ EmptyString.
Proof.
  unfold Spec.has_name, Spec.name_of, Frame.cell.
  destruct (cells r !! "nom") as [[| | s | x] |]; try done.
  intros Hs. by exists s.
Qed.

Lemma names_of_named rs :
  Forall Spec.has_name rs →
  map (Frame.cell "nom") rs = map VStr (omap Spec.name_of rs).
Proof.
  induction 1 as [| r rs Hr _ IH]; [done |].
  destruct (has_name_cell r Hr) as (s & Hs & Hc & _).
  simpl. rewrite Hs, Hc, IH. done.
Qed.

Lemma suffix_duplicates_val d :
  Forall Spec.has_name (rows d) →
  Val.suffix_duplicates d = mkDF (columns d) (Spec.step4 (columns d) (rows d)).
Proof.
  intros Hn. unfold Val.suffix_duplicates, Spec.step4.
  destruct d as [cols rs]; simpl in *.
  case_bool_decide; case_decide; try done.
  unfold Frame.set_column, Frame.column. simpl.
  rewrite bool_decide_eq_true_2 by done. f_equal.
  rewrite names_of_named by done.
  rewrite (suffix_loop_numbered _ []) by apply counts_agree_empty.
  simpl. rewrite zip_with_map_snd. reflexivity.
Qed.

(** *** Step 5 *)

Lemma keep_required_val d :
  Val.keep_required d
  = mkDF (Spec.kept_columns (columns d)) (Spec.step5 (columns d) (rows d)).
Proof.
  unfold Val.keep_required, Frame.reset_index, Frame.project, Spec.step5. simpl.
  f_equal. by rewrite map_fmap, imap_fmap.
Qed.

(** *** The temporary column leaves no trace *)

Lemma name_of_without r : Spec.name_of (without_prix_num r) = Spec.name_of r.
Proof.
  unfold Spec.name_of, without_prix_num. simpl. by rewrite lookup_delete_ne.
Qed.

Lemma has_name_without r : Spec.has_name r → Spec.has_name (without_prix_num r).
Proof. unfold Spec.has_name. by rewrite name_of_without. Qed.

Lemma names_without rs :
  omap Spec.name_of (map without_prix_num rs) = omap Spec.name_of rs.
Proof.
  induction rs as [| r rs IH]; [done |]. simpl.
  rewrite name_of_without. destruct (Spec.name_of r); [f_equal |]; exact IH.
Qed.

Lemma zip_rename_without rs ns :
  zip_with Spec.rename (map without_prix_num rs) ns
  = map without_prix_num (zip_with Spec.rename rs ns).
Proof.
  revert ns. induction rs as [| r rs IH]; intros [| n ns]; simpl; try done.
  rewrite IH. f_equal. unfold Spec.rename, without_prix_num. simpl.
  by rewrite delete_insert_ne.
Qed.

Lemma step4_without cols rs :
  Spec.step4 cols (map without_prix_num rs)
  = map without_prix_num (Spec.step4 cols rs).
Proof.
  unfold Spec.step4. case_decide; [| done].
  by rewrite names_without, zip_rename_without.
Qed.

Lemma kept_not_prix_num cols : "prix_num" ∉ Spec.kept_columns cols.
Proof.
  unfold Spec.kept_columns. rewrite list_elem_of_filter.
  intros [_ Hin]. unfold Spec.required in Hin.
  repeat (apply elem_of_cons in Hin as [Hin | Hin]; [done |]).
  by apply elem_of_nil in Hin.
Qed.

Lemma step5_without cols rs :
  Spec.step5 cols (map without_prix_num rs) = Spec.step5 cols rs.
Proof.
  unfold Spec.step5. rewrite map_fmap, imap_fmap. apply imap_ext.
  intros i r _. simpl. f_equal.
  apply map_filter_delete_not. intros y _. simpl. apply kept_not_prix_num.
Qed.

Lemma filter_ext_in {A} (P Q : A → Prop) `{!∀ x, Decision (P x), !∀ x, Decision (Q x)}
    (l : list A) :
  (∀ x, x ∈ l → (P x ↔ Q x)) → filter P l = filter Q l.
Proof.
  induction l as [| x l IH]; intros Hext; [done |].
  rewrite !filter_cons.
  rewrite IH by (intros y Hy; apply Hext; by right).
  assert (P x ↔ Q x) as Hx by (apply Hext; by left).
  repeat case_decide; tauto || done.
Qed.

Lemma kept_columns_without cols :
  Spec.kept_columns (filter (λ x, x ≠ "prix_num") cols) = Spec.kept_columns cols.
Proof.
  unfold Spec.kept_columns. apply filter_ext_in. intros c Hc.
  rewrite list_elem_of_filter. split; [tauto |]. intros Hin. split; [| done].
  intros ->. unfold Spec.required in Hc.
  repeat (apply elem_of_cons in Hc as [Hc | Hc]; [done |]).
  by apply elem_of_nil in Hc.
Qed.

Lemma step5_kept cols cols' rs :
  Spec.kept_columns cols' = Spec.kept_columns cols →
  Spec.step5 cols' rs = Spec.step5 cols rs.
Proof. intros H. unfold Spec.step5. by rewrite H. Qed.

Lemma step4_nom cols cols' rs :
  ("nom" ∈ cols' ↔ "nom" ∈ cols) → Spec.step4 cols' rs = Spec.step4 cols rs.
Proof. intros H. unfold Spec.step4. repeat case_decide; tauto || done. Qed.

(** *** The whole pipeline *)

Lemma step1_named cols rs : "nom" ∈ cols → Forall Spec.has_name (Spec.step1 cols rs).
Proof.
  intros H. unfold Spec.step1. rewrite decide_True by done.
  apply Forall_forall. intros r Hr. by apply list_elem_of_filter in Hr as [? _].
Qed.

Lemma step2_named cols rs : Forall Spec.has_name rs → Forall Spec.has_name (Spec.step2 cols rs).
Proof.
  intros H. unfold Spec.step2. case_decide; [| done].
  rewrite Forall_forall in *. intros r Hr.
  apply list_elem_of_filter in Hr as [_ Hr]. by apply H.
Qed.

Lemma step3_named cols rs : Forall Spec.has_name rs → Forall Spec.has_name (Spec.step3 cols rs).
Proof.
  intros H. unfold Spec.step3. case_decide; [| done].
  rewrite Forall_forall in *. intros r Hr.
  apply list_elem_of_filter in Hr as [_ Hr]. by apply H.
Qed.

Lemma survivors_named d : "nom" ∈ columns d → Forall Spec.has_name (Spec.survivors d).
Proof.
  intros H. unfold Spec.survivors.
  by apply step3_named, step2_named, step1_named.
Qed.

Lemma step4_no_nom cols rs : "nom" ∉ cols → Spec.step4 cols rs = rs.
Proof. intros H. unfold Spec.step4. by rewrite decide_False. Qed.

Lemma finish_val cols rs :
  ("nom" ∈ cols → Forall Spec.has_name rs) →
  Val.keep_required (Val.suffix_duplicates (mkDF cols rs))
  = mkDF (Spec.kept_columns cols) (Spec.step5 cols (Spec.step4 cols rs)).
Proof.
  intros Hn. destruct (decide ("nom" ∈ cols)) as [Hin | Hout].
  - rewrite suffix_duplicates_val by (simpl; auto).
    by rewrite keep_required_val.
  - unfold Val.suffix_duplicates. simpl.
    rewrite bool_decide_eq_false_2 by done.
    by rewrite keep_required_val, step4_no_nom.
Qed.

Lemma finish_from_step2 cols r2 :
  ("nom" ∈ cols → Forall Spec.has_name r2) →
  Val.keep_required (Val.suffix_duplicates (Val.drop_outliers (mkDF cols r2)))
  = mkDF (Spec.kept_columns cols)
         (Spec.step5 cols (Spec.step4 cols (Spec.step3 cols r2))).
Proof.
  intros Hnamed2.
  assert ("nom" ∈ cols → Forall Spec.has_name (Spec.step3 cols r2)) as Hnamed.
  { intros Hin. by apply step3_named, Hnamed2. }
  destruct (decide ("prix" ∈ cols ∧ r2 ≠ [])) as [[Hp Hr] | Hno].
  - rewrite drop_outliers_val by done. simpl.
    rewrite finish_val.
    + rewrite kept_columns_without. f_equal.
      rewrite (step5_kept cols) by apply kept_columns_without.
      rewrite (step4_nom cols).
      * by rewrite step4_without, step5_without.
      * rewrite list_elem_of_filter. split; [tauto | done].
    + intros Hin. apply list_elem_of_filter in Hin as [_ Hin].
      specialize (Hnamed Hin). rewrite Forall_forall in *.
      intros r Hr'. apply list_elem_of_fmap in Hr' as (r' & -> & Hr').
      apply has_name_without. by apply Hnamed.
  - assert (Val.drop_outliers (mkDF cols r2) = mkDF cols (Spec.step3 cols r2)) as ->.
    { unfold Val.drop_outliers, Spec.step3. simpl.
      destruct (decide ("prix" ∈ cols)) as [Hp | Hp].
      - destruct r2 as [| r r2']; [| exfalso; apply Hno; split; done].
        rewrite bool_decide_eq_true_2 by done. done.
      - by rewrite bool_decide_eq_false_2. }
    by rewrite finish_val.
Qed.

Lemma clean_val_result d : Val.clean d = clean_result d.
Proof.
  unfold Val.clean, clean_result.
  destruct (Frame.empty d) eqn:He; [done |].
  rewrite drop_unnamed_val.
  set (cols := columns d). set (r1 := Spec.step1 cols (rows d)).
  assert ("nom" ∈ cols → Forall Spec.has_name r1) as Hnamed1
    by (intros Hin; by apply step1_named).
  case_bool_decide as Hcorner.
  - destruct Hcorner as [Hp ->]. by rewrite drop_on_request_none.
  - assert (Val.drop_on_request (mkDF cols r1) = mkDF cols (Spec.step2 cols r1)) as ->.
    { destruct (decide ("prix" ∈ cols)) as [Hp | Hp].
      - destruct (drop_on_request_val (mkDF cols r1) Hp) as [Hnil | Heq]; [| done].
        simpl in Hnil. exfalso. by apply Hcorner.
      - by apply (drop_on_request_no_prix (mkDF cols r1)). }
    rewrite finish_from_step2; [done |].
    intros Hin. by apply step2_named, Hnamed1.
Qed.

(** The cleaner, run alone, returns [clean_result]. *)
Lemma cleaned_spec d : cleaned d = Some (clean_result d).
Proof. by rewrite cleaned_val, clean_val_result. Qed.

(** Outside the corner of step 2 the result is the frame the rules
    describe. *)
Lemma clean_result_rules d :
  Frame.empty d = false → Spec.step1 (columns d) (rows d) ≠ [] →
  clean_result d = Spec.clean d.
Proof.
  intros He Hne. unfold clean_result. rewrite He.
  rewrite bool_decide_eq_false_2; [done |]. tauto.
Qed.

(** In every case the rows are those the rules describe. *)
Lemma clean_result_rows d :
  Frame.empty d = false → rows (clean_result d) = rows (Spec.clean d).
Proof.
  intros He. unfold clean_result. rewrite He.
  case_bool_decide as Hcorner; [| done].
  destruct Hcorner as [Hp Hnil]. unfold Spec.clean, Spec.survivors. simpl.
  rewrite Hnil. unfold Spec.step2, Spec.step3, Spec.step4, Spec.step5.
  by repeat case_decide.
Qed.

(* ===================================================================== *)
(** ** The argument of the cleaner is left as it was                      *)
(* ===================================================================== *)

(** C10. In every store that holds a raw record set at [df], the
    cleaner returns, and in the store it leaves [df] still holds the
    same frame, as does every reference allocated before the call: the
    filtering, the temporary column and the new names all go to frames
    allocated during the call. *)
Theorem clean_leaves_argument (s : Store) (df : loc) (d : DataFrame) :
  s !! df = Some d → raw d →
  ∃ r s', clean_beautifulsoup_data df s = Some (r, s') ∧
          s' !! df = Some d ∧
          ∀ l x, s !! l = Some x → s' !! l = Some x.
Proof.
  intros Hl _. destruct (clean_run s df d Hl) as (r & s' & Hrun & [e ->] & _).
  exists r, (s ++ e). split_and!; [done | |].
  - by apply lookup_app_l_Some.
  - intros l x Hx. by apply lookup_app_l_Some.
Qed.

Lemma clean_leaves_argument_witness :
  [sample_raw] !! O = Some sample_raw ∧ raw sample_raw ∧
  ∃ r s', clean_beautifulsoup_data O [sample_raw] = Some (r, s') ∧
          s' !! O = Some sample_raw ∧
          ∀ l x, [sample_raw] !! l = Some x → s' !! l = Some x.
Proof.
  split; [reflexivity |].
  assert (raw sample_raw) as Hraw
    by (apply (bool_decide_unpack _); vm_compute; exact I).
  split; [exact Hraw |].
  apply (clean_leaves_argument [sample_raw] O sample_raw); [reflexivity | exact Hraw].
Defined.

(* ===================================================================== *)
(** ** Columns and index of the cleaned frame                             *)
(* ===================================================================== *)

Lemma labels_imap {A} (f : nat → A → Row) (l : list A) (k : nat) :
  (∀ i x, label (f i x) = Z.of_nat (k + i)) →
  map label (imap f l) = map Z.of_nat (seq k (length l)).
Proof.
  revert f k. induction l as [| x l IH]; intros f k Hf; [done |].
  simpl. rewrite Hf, Nat.add_0_r. f_equal.
  apply IH. intros i y. unfold compose. rewrite Hf. f_equal. lia.
Qed.

Lemma step5_labels cols rs :
  map label (Spec.step5 cols rs) = map Z.of_nat (seq 0 (length rs)).
Proof. unfold Spec.step5. by apply labels_imap. Qed.

Lemma length_step5 cols rs : length (Spec.step5 cols rs) = length rs.
Proof. unfold Spec.step5. apply length_imap. Qed.

Lemma step5_keys cols rs r k :
  r ∈ Spec.step5 cols rs → is_Some (cells r !! k) → k ∈ Spec.kept_columns cols.
Proof.
  unfold Spec.step5. intros Hr [v Hv].
  apply list_elem_of_lookup in Hr as [i Hi].
  rewrite list_lookup_imap in Hi.
  destruct (rs !! i) as [r0 |]; [| done]. injection Hi as <-.
  simpl in Hv. by apply map_lookup_filter_Some in Hv as [_ Hk].
Qed.

(** C9, as the claim states it, fails: a crawl that found no ad hands
    the cleaner [pd.DataFrame([])], which has no column, and the
    cleaner returns it as it is. *)
Lemma four_columns_counterexample :
  ∃ out, cleaned (DataFrame_of []) = Some out ∧
         columns out ≠ ["nom"; "prix"; "adresse"; "image_lien"].
Proof. exists (mkDF [] []). split; [reflexivity | discriminate]. Qed.

(** C9, amended. For a raw record set with at least one column in which
    the name filter leaves at least one row, the cleaned frame has, of
    the columns nom, prix, adresse, image_lien, exactly those the input
    has, in that order (all four when the input has them), no row
    keeps a cell of another column, and the index is 0 .. n-1. *)
Theorem cleaned_columns_and_index (d : DataFrame) :
  raw d → Frame.empty d = false → Spec.step1 (columns d) (rows d) ≠ [] →
  ∃ out, cleaned d = Some out ∧
    columns out = filter (λ c, c ∈ columns d) ["nom"; "prix"; "adresse"; "image_lien"] ∧
    (Forall (λ c, c ∈ columns d) ["nom"; "prix"; "adresse"; "image_lien"] →
     columns out = ["nom"; "prix"; "adresse"; "image_lien"]) ∧
    (∀ r k, r ∈ rows out → is_Some (cells r !! k) → k ∈ columns out) ∧
    map label (rows out) = map Z.of_nat (seq 0 (length (rows out))).
Proof.
  intros _ He Hne. exists (Spec.clean d).
  rewrite cleaned_spec, clean_result_rules by done.
  split_and!; try done.
  - intros Hall. unfold Spec.clean, Spec.kept_columns, Spec.required. simpl.
    rewrite Forall_forall in Hall.
    rewrite !filter_cons_True, filter_nil; [done | apply Hall ..];
      repeat ((by left) || right).
  - intros r k. unfold Spec.clean. simpl. apply step5_keys.
  - unfold Spec.clean. simpl. by rewrite step5_labels, length_step5.
Qed.

Lemma cleaned_columns_and_index_witness :
  raw sample_raw ∧ Frame.empty sample_raw = false ∧
  Spec.step1 (columns sample_raw) (rows sample_raw) ≠ [] ∧
  ∃ out, cleaned sample_raw = Some out ∧
    columns out = filter (λ c, c ∈ columns sample_raw)
                    ["nom"; "prix"; "adresse"; "image_lien"] ∧
    (Forall (λ c, c ∈ columns sample_raw) ["nom"; "prix"; "adresse"; "image_lien"] →
     columns out = ["nom"; "prix"; "adresse"; "image_lien"]) ∧
    (∀ r k, r ∈ rows out → is_Some (cells r !! k) → k ∈ columns out) ∧
    map label (rows out) = map Z.of_nat (seq 0 (length (rows out))).
Proof.
  assert (raw sample_raw) as Hraw
    by (apply (bool_decide_unpack _); vm_compute; exact I).
  assert (Spec.step1 (columns sample_raw) (rows sample_raw) ≠ []) as Hne
    by (vm_compute; discriminate).
  split; [exact Hraw |]. split; [reflexivity |]. split; [exact Hne |].
  apply (cleaned_columns_and_index sample_raw); [exact Hraw | reflexivity | exact Hne].
Defined.

(* ===================================================================== *)
(** ** The two price rules                                                *)
(* ===================================================================== *)

Lemma cleaned_rows_with_prix d :
  Frame.empty d = false → "prix" ∈ columns d →
  rows (clean_result d) =
  Spec.step5 (columns d) (Spec.step4 (columns d)
    (let named := Spec.step1 (columns d) (rows d) in
     let priced := filter (λ r, ¬ Spec.on_request r) named in
     filter (λ r, ¬ Spec.outlier priced r) priced)).
Proof.
  intros He Hp. rewrite clean_result_rows by done.
  unfold Spec.clean, Spec.survivors, Spec.step3, Spec.step2. simpl.
  by rewrite !decide_True by done.
Qed.

Lemma outlier_words rs r :
  Spec.outlier rs r ↔
  ∃ p, Spec.parsed_price r = Some p ∧ (inject_Z p < Spec.mean_price rs / 2)%Q.
Proof.
  unfold Spec.outlier. destruct (Spec.parsed_price r) as [p |].
  - split; [intros H; by exists p | intros (q & [= <-] & H); done].
  - split; [done | intros (q & [=] & _)].
Qed.



(** C2. On a raw record set with a price column, the rows that reach
    step 3 are those left by steps 1 and 2; while the sum of the prices
    read from them is below 2^53, so that float64 holds every value
    exactly, step 3 keeps of them
    exactly the rows that are not outliers, an outlier being a row whose
    price parses (spaces and CFA stripped, first run of digits) to a
    number strictly less than half the mean of the prices that parse
    among the rows left by steps 1 and 2.  A row whose price does not
    parse is kept, and when no price parses nothing is dropped.  The
    rows of the cleaned frame are the kept rows, renamed and
    renumbered. *)
Theorem outliers_dropped (d : DataFrame) :
  raw d → Frame.empty d = false → "prix" ∈ columns d →
  exact_floats (Spec.step2 (columns d) (Spec.step1 (columns d) (rows d))) →
  let cols := columns d in
  let before := Spec.step2 cols (Spec.step1 cols (rows d)) in
  let kept := filter (λ r, ¬ Spec.outlier before r) before in
  (∃ out, cleaned d = Some out ∧
          rows out = Spec.step5 cols (Spec.step4 cols kept)) ∧
  (∀ r, r ∈ before →
        (r ∈ kept ↔
         ¬ ∃ p, Spec.parsed_price r = Some p ∧
                (inject_Z p < Spec.mean_price before / 2)%Q)) ∧
  (∀ r, r ∈ before → Spec.parsed_price r = None → r ∈ kept) ∧
  (omap Spec.parsed_price before = [] → kept = before).
Proof.
  intros _ He Hp _ cols before kept. split_and!.
  - exists (clean_result d). split; [apply cleaned_spec |].
    rewrite cleaned_rows_with_prix by done. unfold kept, before, cols, Spec.step2.
    by rewrite decide_True by done.
  - intros r Hr. unfold kept. rewrite list_elem_of_filter, outlier_words. tauto.
  - intros r Hr Hnone. unfold kept. rewrite list_elem_of_filter. split; [| done].
    unfold Spec.outlier. rewrite Hnone. tauto.
  - apply no_price_no_outlier.
Qed.

Lemma outliers_dropped_witness :
  raw sample_raw ∧ Frame.empty sample_raw = false ∧ "prix" ∈ columns sample_raw ∧
  exact_floats (Spec.step2 (columns sample_raw)
                  (Spec.step1 (columns sample_raw) (rows sample_raw))) ∧
  let cols := columns sample_raw in
  let before := Spec.step2 cols (Spec.step1 cols (rows sample_raw)) in
  let kept := filter (λ r, ¬ Spec.outlier before r) before in
  (∃ out, cleaned sample_raw = Some out ∧
          rows out = Spec.step5 cols (Spec.step4 cols kept)) ∧
  (∀ r, r ∈ before →
        (r ∈ kept ↔
         ¬ ∃ p, Spec.parsed_price r = Some p ∧
                (inject_Z p < Spec.mean_price before / 2)%Q)) ∧
  (∀ r, r ∈ before → Spec.parsed_price r = None → r ∈ kept) ∧
  (omap Spec.parsed_price before = [] → kept = before).
Proof.
  assert (raw sample_raw) as Hraw
    by (apply (bool_decide_unpack _); vm_compute; exact I).
  assert ("prix" ∈ columns sample_raw) as Hp
    by (apply (bool_decide_unpack _); vm_compute; exact I).
  assert (exact_floats (Spec.step2 (columns sample_raw)
                          (Spec.step1 (columns sample_raw) (rows sample_raw)))) as Hx
    by (apply (bool_decide_unpack _); vm_compute; exact I).
  split; [exact Hraw |]. split; [reflexivity |]. split; [exact Hp |].
  split; [exact Hx |].
  apply (outliers_dropped sample_raw); [exact Hraw | reflexivity | exact Hp | exact Hx].
Defined.



(* ===================================================================== *)
(** ** The numbering of repeated names                                    *)
(* ===================================================================== *)

Lemma length_numbered seen names :
  length (Spec.numbered seen names) = length names.
Proof.
  revert seen. induction names as [| n names IH]; intros seen; simpl; [done |].
  by rewrite IH.
Qed.


Lemma length_names rs :
  Forall Spec.has_name rs → length (omap Spec.name_of rs) = length rs.
Proof.
  induction 1 as [| r rs Hr _ IH]; [done |].
  destruct (has_name_cell r Hr) as (s & Hs & _).
  simpl. rewrite Hs. simpl. f_equal. exact IH.
Qed.

Lemma nom_kept cols : "nom" ∈ cols → "nom" ∈ Spec.kept_columns cols.
Proof.
  intros H. unfold Spec.kept_columns. rewrite list_elem_of_filter.
  split; [done | by left].
Qed.

Lemma column_renamed cols rs ns (g : nat → Z) :
  "nom" ∈ cols → length ns = length rs →
  map (Frame.cell "nom")
    (imap (λ i r, mkRow (g i) (filter (λ kv, kv.1 ∈ Spec.kept_columns cols) (cells r)))
       (zip_with Spec.rename rs ns))
  = map VStr ns.
Proof.
  intros Hc. revert ns g.
  induction rs as [| r rs IH]; intros [| n ns] g Hlen; simpl in *; try done.
  f_equal.
  - unfold Frame.cell. simpl.
    erewrite map_lookup_filter_Some_2; [done | apply lookup_insert_eq |].
    simpl. by apply nom_kept.
  - apply (IH ns (g ∘ S)). lia.
Qed.


(** *** Two numbered names are equal only for the same name and number *)






(** *** A repeated name has been seen more often the second time *)











(* ===================================================================== *)
(** ** Cleaning a cleaned frame                                           *)
(* ===================================================================== *)

Lemma filter_all {A} (P : A → Prop) `{!∀ x, Decision (P x)} (l : list A) :
  Forall P l → filter P l = l.
Proof.
  induction 1 as [| x l Hx _ IH]; [done |].
  by rewrite filter_cons_True, IH.
Qed.


Lemma numbered_name_nonempty seen n :
  n ≠ EmptyString → Spec.numbered_name seen n ≠ EmptyString.
Proof.
  intros Hn. unfold Spec.numbered_name.
  destruct (Spec.occurrences n seen); [done |]. by destruct n.
Qed.

Lemma numbered_nonempty seen names :
  Forall (λ n, n ≠ EmptyString) names →
  Forall (λ n, n ≠ EmptyString) (Spec.numbered seen names).
Proof.
  intros H. revert seen. induction H as [| n names Hn _ IH]; intros seen; simpl.
  - constructor.
  - constructor; [by apply numbered_name_nonempty | apply IH].
Qed.

Lemma names_nonempty rs :
  Forall Spec.has_name rs → Forall (λ n, n ≠ EmptyString) (omap Spec.name_of rs).
Proof.
  induction 1 as [| r rs Hr _ IH]; [constructor |].
  destruct (has_name_cell r Hr) as (s & Hs & _ & Hne).
  simpl. rewrite Hs. by constructor.
Qed.

Lemma named_of_column rs ns :
  map (Frame.cell "nom") rs = map VStr ns →
  Forall (λ n, n ≠ EmptyString) ns → Forall Spec.has_name rs.
Proof.
  revert ns. induction rs as [| r rs IH]; intros ns H Hne; [constructor |].
  destruct ns as [| n ns]; simpl in H; [done |].
  injection H as Hr H. inversion Hne as [| ? ? Hn Hne']; subst.
  constructor; [| by eapply IH].
  unfold Frame.cell in Hr. unfold Spec.has_name, Spec.name_of.
  destruct (cells r !! "nom") as [[| | s | x] |]; simpl in Hr; try done.
  by injection Hr as ->.
Qed.

Lemma cleaned_rows_named d :
  "nom" ∈ columns d → Forall Spec.has_name (rows (Spec.clean d)).
Proof.
  intros Hn.
  apply (named_of_column _ (Spec.numbered [] (omap Spec.name_of (Spec.survivors d)))).
  - unfold Spec.clean, Spec.step4, Spec.step5. simpl.
    rewrite decide_True by done.
    apply (column_renamed _ _ _ Z.of_nat); [done |].
    rewrite length_numbered. by apply length_names, survivors_named.
  - by apply numbered_nonempty, names_nonempty, survivors_named.
Qed.







Lemma clean_result_cases d :
  (clean_result d = d ∧ Frame.empty d = true) ∨
  clean_result d = mkDF [] [] ∨
  clean_result d = Spec.clean d.
Proof.
  unfold clean_result. destruct (Frame.empty d); [by left |].
  case_bool_decide; right; [by left | by right].
Qed.




(* ===================================================================== *)
(** ** The crawler: one container                                         *)
(* ===================================================================== *)

Lemma scr_bind_run {A B} (m : Scr A) (f : A → Scr B) w tr x tr' :
  m w tr = (inr x, tr') → (m ≫= f) w tr = f x w tr'.
Proof. intros H. unfold mbind, Scr_bind. by rewrite H. Qed.

Lemma scr_bind_raise {A B} (m : Scr A) (f : A → Scr B) w tr e tr' :
  m w tr = (inl e, tr') → (m ≫= f) w tr = (inl e, tr').
Proof. intros H. unfold mbind, Scr_bind. by rewrite H. Qed.

Lemma detail_block_run w url img data tr :
  detail_block url img data w tr =
  (inr (match Crawl.fetched w url ≫= Crawl.extracted with
        | Some (Some (String ch n), p, a) => data ++ [mkItem (String ch n) p a img]
        | _ => data
        end),
   tr ++ [EvGet url]).
Proof.
  unfold detail_block, Py.try_except, Crawl.fetched, Crawl.extracted,
    Crawl.trimmed_text.
  unfold mbind at 1, Scr_bind, Py.requests_get.
  destruct (w url) as [e | resp]; [done |].
  unfold mbind at 1, Scr_bind, Py.raise_for_status.
  case_bool_decide; [done |]. unfold mret at 1, Scr_ret. simpl.
  unfold mbind at 1, Scr_bind.
  destruct (find_title (content resp)) as [e | title]; [done |]. simpl.
  unfold mbind at 1, Scr_bind.
  destruct (find_price (content resp)) as [e | price]; [done |]. simpl.
  unfold mbind at 1, Scr_bind.
  destruct (find_address (content resp)) as [e | [span |]]; [done | |]; simpl.
  - unfold mbind at 1, Scr_bind.
    destruct (attrs span !! "data-address") as [a |]; [| done]. simpl.
    destruct title as [t |]; simpl; [by destruct (PyStr.strip (text t)) | done].
  - unfold mbind at 1, Scr_bind. simpl.
    destruct title as [t |]; simpl; [by destruct (PyStr.strip (text t)) | done].
Qed.

Lemma scrape_container_blocks (c : Container) (data : list Item) :
  scrape_container c data =
  Py.try_except
    (match find_a c with
     | None => mret data
     | Some link_tag =>
         match attrs link_tag !! "href" with
         | None => mret data
         | Some href =>
             _ ← Py.sleep;
             detail_block (String.append "https://sn.coinafrique.com" href)
               (match find_img c with
                | Some img_tag => attrs img_tag !! "src"
                | None => None
                end) data
         end
     end)
    (λ _, mret data).
Proof. reflexivity. Qed.

(** One container never raises: it adds its item to the list, or
    leaves the list as it is. *)
Lemma scrape_container_run w c data tr :
  ∃ tr', scrape_container c data w tr =
         (inr (match Crawl.item_of w c with
               | Some it => data ++ [it]
               | None => data
               end), tr').
Proof.
  rewrite scrape_container_blocks.
  unfold Crawl.item_of, Crawl.detail_url, Crawl.image_of, Py.try_except.
  destruct (find_a c) as [a |]; simpl; [| by eexists].
  destruct (attrs a !! "href") as [href |]; simpl; [| by eexists].
  unfold mbind at 1, Scr_bind, Py.sleep.
  rewrite detail_block_run. eexists. f_equal.
  destruct (Crawl.fetched w _) as [soup |]; simpl; [| done].
  by destruct (Crawl.extracted soup) as [[[[[| ch n] |] p] ad] |].
Qed.

(* ===================================================================== *)
(** ** The crawler: pages and categories                                  *)
(* ===================================================================== *)

Lemma scrape_containers_run w cs data tr :
  ∃ tr', scrape_containers cs data w tr
         = (inr (data ++ omap (Crawl.item_of w) cs), tr').
Proof.
  revert data tr. induction cs as [| c cs IH]; intros data tr; simpl.
  - eexists. unfold mret, Scr_ret. by rewrite app_nil_r.
  - destruct (scrape_container_run w c data tr) as [tr1 H1].
    erewrite scr_bind_run by exact H1.
    destruct (IH (match Crawl.item_of w c with
                  | Some it => data ++ [it]
                  | None => data
                  end) tr1) as [tr2 H2].
    exists tr2. rewrite H2. do 2 f_equal.
    destruct (Crawl.item_of w c); [by rewrite <- app_assoc | done].
Qed.

(** A listing page that is fetched gives the items of its containers,
    whatever happens to each of them. *)
Lemma scrape_page_run w url soup tr :
  Crawl.fetched w url = Some soup →
  ∃ tr', scrape_page url w tr
         = (inr (omap (Crawl.item_of w) (find_all_containers soup)), tr').
Proof.
  unfold Crawl.fetched, scrape_page, Py.try_except. intros Hf.
  unfold mbind at 1, Scr_bind, Py.requests_get.
  destruct (w url) as [e | resp]; [done |].
  unfold mbind at 1, Scr_bind, Py.raise_for_status.
  case_bool_decide; [done |]. injection Hf as <-.
  unfold mret at 1, Scr_ret.
  destruct (find_all_containers (content resp)) as [| c cs] eqn:Ec.
  - by eexists.
  - destruct (scrape_containers_run w (c :: cs) [] (tr ++ [EvGet url])) as [tr' H'].
    rewrite H'. by eexists.
Qed.

Lemma scrape_pages_run w base_url num_pages pages all_data tr :
  (∀ p, p ∈ pages → is_Some (Crawl.fetched w (Crawl.page_url base_url p))) →
  ∃ tr', scrape_pages base_url num_pages pages all_data w tr
         = (inr (all_data ++
                 concat (map (λ p, Crawl.page_items w (Crawl.page_url base_url p))
                           pages)), tr').
Proof.
  revert all_data tr. induction pages as [| p pages IH]; intros all_data tr Hok.
  - eexists. simpl. unfold mret, Scr_ret. by rewrite app_nil_r.
  - destruct (Hok p) as [soup Hsoup]; [by left |].
    change (scrape_pages base_url num_pages (p :: pages) all_data) with
      (page_data ← scrape_page (Crawl.page_url base_url p);
       _ ← (if bool_decide (p < num_pages) then Py.sleep else mret tt);
       scrape_pages base_url num_pages pages (all_data ++ page_data)).
    destruct (scrape_page_run w _ soup tr Hsoup) as [tr1 H1].
    erewrite scr_bind_run by exact H1.
    assert (∃ tr2, (if bool_decide (p < num_pages) then Py.sleep else mret tt)
                     w tr1 = (inr tt, tr2)) as [tr2 H2].
    { case_bool_decide; by eexists. }
    erewrite scr_bind_run by exact H2.
    destruct (IH (all_data ++ omap (Crawl.item_of w) (find_all_containers soup)) tr2)
      as [tr3 H3]; [intros q Hq; apply Hok; by right |].
    exists tr3. rewrite H3. do 2 f_equal. simpl.
    unfold Crawl.page_items at 2. rewrite Hsoup. by rewrite <- app_assoc.
Qed.

(** C4. A crawl of a known category whose listing pages are all fetched
    returns a table and raises nothing, whatever happens to the
    individual items: each listing page gives exactly the items of its
    containers whose detail page is fetched and extracted, in order, a
    container that fails gives none, and the table is the cleaned
    concatenation of the pages. *)
Theorem item_failures_skipped (category base_url : string) (num_pages : Z)
    (w : World) (tr : list Event) :
  CATEGORIES !! category = Some base_url →
  (∀ p, p ∈ seqZ 1 num_pages →
        is_Some (Crawl.fetched w (Crawl.page_url base_url p))) →
  (∀ url soup tr0, Crawl.fetched w url = Some soup →
     ∃ tr1, scrape_page url w tr0
            = (inr (omap (Crawl.item_of w) (find_all_containers soup)), tr1)) ∧
  ∃ T tr',
    scrape_category category num_pages w tr = (inr T, tr') ∧
    cleaned (DataFrame_of
               (concat (map (λ p, Crawl.page_items w (Crawl.page_url base_url p))
                          (seqZ 1 num_pages)))) = Some T.
Proof.
  intros Hcat Hok. split.
  - intros url soup tr0. apply scrape_page_run.
  - unfold scrape_category. rewrite Hcat.
    destruct (scrape_pages_run w base_url num_pages (seqZ 1 num_pages) [] tr Hok)
      as [tr' H']. simpl in H'.
    erewrite scr_bind_run by exact H'.
    rewrite cleaned_spec. by eexists _, _.
Qed.

Lemma item_failures_skipped_witness :
  CATEGORIES !! "chiens" = Some "https://sn.coinafrique.com/categorie/chiens" ∧
  Crawl.item_of sample_site (sample_container "/annonce/1") = None ∧
  (∀ url soup tr0, Crawl.fetched sample_site url = Some soup →
     ∃ tr1, scrape_page url sample_site tr0
            = (inr (omap (Crawl.item_of sample_site) (find_all_containers soup)), tr1)) ∧
  ∃ T tr',
    scrape_category "chiens" 1 sample_site [] = (inr T, tr') ∧
    cleaned (DataFrame_of
               (concat (map (λ p, Crawl.page_items sample_site
                                    (Crawl.page_url
                                       "https://sn.coinafrique.com/categorie/chiens" p))
                          (seqZ 1 1)))) = Some T.
Proof.
  split; [reflexivity |]. split; [reflexivity |].
  apply (item_failures_skipped "chiens"
           "https://sn.coinafrique.com/categorie/chiens" 1 sample_site []).
  - reflexivity.
  - intros p Hp. vm_compute in Hp. apply list_elem_of_singleton in Hp as ->.
    vm_compute. by eexists.
Defined.

(* ===================================================================== *)
(** ** The guarded block of a detail page                                 *)
(* ===================================================================== *)

(** The lookups of BeautifulSoup return a tag or nothing on every
    document.  The model lets a lookup raise as well, so that what the
    guarded block of lines 109-145 does with an exception can be
    stated; no page of the site is known to produce one. *)

(** In the model, a detail page whose title and address are found and
    whose price lookup raises gives no item. *)
Lemma raising_lookup_sample :
  find_title broken_detail = inr (Some (sample_tag "Rex")) ∧
  (∃ span, find_address broken_detail = inr (Some span) ∧
           attrs span !! "data-address" = Some "Dakar") ∧
  find_price broken_detail = inl (LookupFailure "price") ∧
  scrape_container (sample_container "/annonce/1") [] sample_site []
  = (inr [], [EvSleep; EvGet "https://sn.coinafrique.com/annonce/1"]).
Proof.
  split_and!; [reflexivity | | reflexivity | reflexivity].
  eexists. split; reflexivity.
Qed.

(** The three lookups of a detail page stand in one guarded block.
    When the detail page is fetched and one of the lookups raises, the
    container is skipped as a whole, list and crawl go on unchanged and
    nothing is raised; when none raises and a name is found, the item
    is added with its three fields and the thumbnail. *)
Lemma failed_lookup_skips_item (w : World) (c : Container) (data : list Item)
    (tr : list Event) (url : string) (soup : Soup) :
  Crawl.detail_url c = Some url →
  Crawl.fetched w url = Some soup →
  ((∃ e, find_title soup = inl e ∨ find_price soup = inl e ∨ find_address soup = inl e) →
   ∃ tr', scrape_container c data w tr = (inr data, tr')) ∧
  (∀ ch n p a, Crawl.extracted soup = Some (Some (String ch n), p, a) →
     ∃ tr', scrape_container c data w tr
            = (inr (data ++ [mkItem (String ch n) p a (Crawl.image_of c)]), tr')).
Proof.
  intros Hurl Hsoup.
  destruct (scrape_container_run w c data tr) as [tr' Hrun].
  unfold Crawl.item_of in Hrun. rewrite Hurl in Hrun. simpl in Hrun.
  rewrite Hsoup in Hrun. simpl in Hrun. split.
  - intros (e & Hthrow). exists tr'. rewrite Hrun.
    assert (Crawl.extracted soup = None) as ->; [| done].
    unfold Crawl.extracted.
    destruct Hthrow as [-> | [-> | ->]]; [done | |].
    + by destruct (find_title soup).
    + by destruct (find_title soup), (find_price soup).
  - intros ch n p a Hex. exists tr'. rewrite Hrun, Hex. done.
Qed.

Lemma failed_lookup_skips_item_witness :
  Crawl.detail_url (sample_container "/annonce/1")
  = Some "https://sn.coinafrique.com/annonce/1" ∧
  Crawl.fetched sample_site "https://sn.coinafrique.com/annonce/1"
  = Some broken_detail ∧
  ((∃ e, find_title broken_detail = inl e ∨ find_price broken_detail = inl e
         ∨ find_address broken_detail = inl e) →
   ∃ tr', scrape_container (sample_container "/annonce/1") [] sample_site []
          = (inr [], tr')) ∧
  (∀ ch n p a, Crawl.extracted broken_detail = Some (Some (String ch n), p, a) →
     ∃ tr', scrape_container (sample_container "/annonce/1") [] sample_site []
            = (inr ([] ++ [mkItem (String ch n) p a
                             (Crawl.image_of (sample_container "/annonce/1"))]), tr')).
Proof.
  split; [reflexivity |]. split; [reflexivity |].
  apply (failed_lookup_skips_item sample_site (sample_container "/annonce/1") [] []
           "https://sn.coinafrique.com/annonce/1" broken_detail);
    reflexivity.
Defined.

(* ===================================================================== *)
(** ** An unknown category                                                *)
(* ===================================================================== *)

(** C8. For a category outside the four known ones and any page count,
    [scrape_category] raises a [ValueError] naming the category, and
    the log of requests is as it was: no request was made. *)
Theorem unknown_category_raises (category : string) (num_pages : Z)
    (w : World) (tr : list Event) :
  category ∉ ["chiens"; "moutons"; "poules-lapins-et-pigeons"; "autres-animaux"] →
  scrape_category category num_pages w tr
  = (inl (ValueError (invalid_category_message category)), tr).
Proof.
  intros Hnot. unfold scrape_category.
  assert (CATEGORIES !! category = None) as ->; [| done].
  unfold CATEGORIES.
  rewrite !not_elem_of_cons in Hnot. destruct Hnot as (? & ? & ? & ? & _).
  by rewrite !lookup_insert_ne, lookup_empty by done.
Qed.

Lemma unknown_category_raises_witness :
  ("invalid-slug" ∉ ["chiens"; "moutons"; "poules-lapins-et-pigeons"; "autres-animaux"]) ∧
  scrape_category "invalid-slug" 1 sample_site []
  = (inl (ValueError (invalid_category_message "invalid-slug")), []).
Proof.
  assert ("invalid-slug" ∉
          ["chiens"; "moutons"; "poules-lapins-et-pigeons"; "autres-animaux"]) as H
    by (apply (bool_decide_unpack _); vm_compute; exact I).
  exact (conj H (unknown_category_raises "invalid-slug" 1 sample_site [] H)).
Defined.

(* ===================================================================== *)
(** ** The requests and sleeps of a crawl                                 *)
(* ===================================================================== *)

Lemma scrape_container_log w c data tr :
  scrape_container c data w tr =
  (inr (match Crawl.item_of w c with
        | Some it => data ++ [it]
        | None => data
        end), tr ++ Log.container_events c).
Proof.
  rewrite scrape_container_blocks.
  unfold Crawl.item_of, Log.container_events, Crawl.detail_url, Crawl.image_of,
    Py.try_except.
  destruct (find_a c) as [a |]; simpl; [| by rewrite app_nil_r].
  destruct (attrs a !! "href") as [href |]; simpl; [| by rewrite app_nil_r].
  unfold mbind at 1, Scr_bind, Py.sleep.
  rewrite detail_block_run. rewrite <- app_assoc. simpl. f_equal. f_equal.
  destruct (Crawl.fetched w _) as [soup |]; simpl; [| done].
  by destruct (Crawl.extracted soup) as [[[[[| ch n] |] p] ad] |].
Qed.

Lemma scrape_containers_log w cs data tr :
  scrape_containers cs data w tr =
  (inr (data ++ omap (Crawl.item_of w) cs),
   tr ++ concat (map Log.container_events cs)).
Proof.
  revert data tr. induction cs as [| c cs IH]; intros data tr; simpl.
  - unfold mret, Scr_ret. by rewrite !app_nil_r.
  - erewrite scr_bind_run by apply scrape_container_log.
    rewrite IH, <- app_assoc. do 2 f_equal.
    destruct (Crawl.item_of w c); [by rewrite <- app_assoc | done].
Qed.

Lemma scrape_page_log w url soup tr :
  Crawl.fetched w url = Some soup →
  scrape_page url w tr =
  (inr (omap (Crawl.item_of w) (find_all_containers soup)),
   tr ++ Log.page_events w url).
Proof.
  intros Hf. unfold Log.page_events. rewrite Hf. revert Hf.
  unfold Crawl.fetched, scrape_page, Py.try_except. intros Hf.
  unfold mbind at 1, Scr_bind, Py.requests_get.
  destruct (w url) as [e | resp]; [done |].
  unfold mbind at 1, Scr_bind, Py.raise_for_status.
  case_bool_decide; [done |]. injection Hf as <-.
  unfold mret at 1, Scr_ret.
  destruct (find_all_containers (content resp)) as [| c cs] eqn:Ec.
  - done.
  - rewrite scrape_containers_log, <- app_assoc. done.
Qed.

Lemma scrape_page_failed w url tr :
  Crawl.fetched w url = None →
  ∃ msg, scrape_page url w tr = (inl (PlainException msg), tr ++ [EvGet url]).
Proof.
  unfold Crawl.fetched, scrape_page, Py.try_except. intros Hf.
  unfold mbind at 1, Scr_bind, Py.requests_get.
  destruct (w url) as [e | resp].
  - destruct e; by eexists.
  - unfold mbind at 1, Scr_bind, Py.raise_for_status.
    case_bool_decide; [| done]. by eexists.
Qed.

Lemma crawl_events_cons w base_url num_pages p pages :
  Log.crawl_events w base_url num_pages (p :: pages)
  = (Log.page_events w (Crawl.page_url base_url p) ++
     if bool_decide (p < num_pages) then [EvSleep] else []) ++
    Log.crawl_events w base_url num_pages pages.
Proof. reflexivity. Qed.

Lemma scrape_pages_log w base_url num_pages pages all_data tr :
  (∀ p, p ∈ pages → is_Some (Crawl.fetched w (Crawl.page_url base_url p))) →
  scrape_pages base_url num_pages pages all_data w tr
  = (inr (all_data ++
          concat (map (λ p, Crawl.page_items w (Crawl.page_url base_url p)) pages)),
     tr ++ Log.crawl_events w base_url num_pages pages).
Proof.
  revert all_data tr. induction pages as [| p pages IH]; intros all_data tr Hok.
  - simpl. unfold mret, Scr_ret. by rewrite !app_nil_r.
  - destruct (Hok p) as [soup Hsoup]; [by left |].
    change (scrape_pages base_url num_pages (p :: pages) all_data) with
      (page_data ← scrape_page (Crawl.page_url base_url p);
       _ ← (if bool_decide (p < num_pages) then Py.sleep else mret tt);
       scrape_pages base_url num_pages pages (all_data ++ page_data)).
    erewrite scr_bind_run by (by apply scrape_page_log).
    assert ((if bool_decide (p < num_pages) then Py.sleep else mret tt) w
              (tr ++ Log.page_events w (Crawl.page_url base_url p))
            = (inr tt, tr ++ Log.page_events w (Crawl.page_url base_url p) ++
                       if bool_decide (p < num_pages) then [EvSleep] else [])) as H2.
    { case_bool_decide; unfold Py.sleep, mret, Scr_ret;
        by rewrite <- ?app_assoc, ?app_nil_r. }
    erewrite scr_bind_run by exact H2.
    rewrite IH by (intros q Hq; apply Hok; by right).
    rewrite crawl_events_cons.
    change (concat (map (λ p, Crawl.page_items w (Crawl.page_url base_url p))
                      (p :: pages)))
      with (Crawl.page_items w (Crawl.page_url base_url p) ++
            concat (map (λ p, Crawl.page_items w (Crawl.page_url base_url p)) pages)).
    unfold Crawl.page_items at 2. rewrite Hsoup.
    by rewrite <- !app_assoc.
Qed.

Lemma scrape_pages_abort w base_url num_pages before k after all_data tr :
  (∀ p, p ∈ before → is_Some (Crawl.fetched w (Crawl.page_url base_url p))) →
  Crawl.fetched w (Crawl.page_url base_url k) = None →
  ∃ msg, scrape_pages base_url num_pages (before ++ k :: after) all_data w tr
         = (inl (PlainException msg),
            tr ++ Log.crawl_events w base_url num_pages before ++
              [EvGet (Crawl.page_url base_url k)]).
Proof.
  intros Hok Hk. revert all_data tr.
  induction before as [| p before IH]; intros all_data tr.
  - destruct (scrape_page_failed w _ tr Hk) as [msg Hmsg]. exists msg.
    change (scrape_pages base_url num_pages ([] ++ k :: after) all_data) with
      (page_data ← scrape_page (Crawl.page_url base_url k);
       _ ← (if bool_decide (k < num_pages) then Py.sleep else mret tt);
       scrape_pages base_url num_pages after (all_data ++ page_data)).
    by erewrite scr_bind_raise by exact Hmsg.
  - destruct (Hok p) as [soup Hsoup]; [by left |].
    change (scrape_pages base_url num_pages ((p :: before) ++ k :: after) all_data) with
      (page_data ← scrape_page (Crawl.page_url base_url p);
       _ ← (if bool_decide (p < num_pages) then Py.sleep else mret tt);
       scrape_pages base_url num_pages (before ++ k :: after) (all_data ++ page_data)).
    erewrite scr_bind_run by (by apply scrape_page_log).
    assert ((if bool_decide (p < num_pages) then Py.sleep else mret tt) w
              (tr ++ Log.page_events w (Crawl.page_url base_url p))
            = (inr tt, tr ++ Log.page_events w (Crawl.page_url base_url p) ++
                       if bool_decide (p < num_pages) then [EvSleep] else [])) as H2.
    { case_bool_decide; unfold Py.sleep, mret, Scr_ret;
        by rewrite <- ?app_assoc, ?app_nil_r. }
    erewrite scr_bind_run by exact H2.
    destruct (IH (λ q Hq, Hok q (list_elem_of_further _ _ _ Hq))
                (all_data ++ omap (Crawl.item_of w) (find_all_containers soup))
                (tr ++ Log.page_events w (Crawl.page_url base_url p) ++
                   if bool_decide (p < num_pages) then [EvSleep] else []))
      as [msg Hmsg].
    exists msg. rewrite Hmsg. f_equal.
    rewrite crawl_events_cons. by rewrite <- !app_assoc.
Qed.

Lemma seqZ_split (k n : Z) :
  1 ≤ k ≤ n → seqZ 1 n = seqZ 1 (k - 1) ++ k :: seqZ (k + 1) (n - k).
Proof.
  intros Hk. replace n with ((k - 1) + (n - k + 1)) at 1 by lia.
  rewrite seqZ_app by lia. f_equal.
  rewrite seqZ_cons by lia. f_equal; [lia |]. f_equal; lia.
Qed.

(** Either every page up to [j] is fetched, or there is a first one
    that is not. *)
Lemma first_failure (w : World) (base_url : string) (j : nat) :
  (∀ p, 1 ≤ p ≤ Z.of_nat j →
        is_Some (Crawl.fetched w (Crawl.page_url base_url p))) ∨
  (∃ k, 1 ≤ k ≤ Z.of_nat j ∧
        (∀ p, 1 ≤ p < k → is_Some (Crawl.fetched w (Crawl.page_url base_url p))) ∧
        Crawl.fetched w (Crawl.page_url base_url k) = None).
Proof.
  induction j as [| j IH].
  - left. intros p Hp. lia.
  - destruct IH as [Hall | (k & Hk & Hbefore & Hfail)].
    + destruct (Crawl.fetched w (Crawl.page_url base_url (Z.of_nat (S j)))) eqn:E.
      * left. intros p Hp. destruct (decide (p = Z.of_nat (S j))) as [-> | Hne].
        -- by rewrite E.
        -- apply Hall. lia.
      * right. exists (Z.of_nat (S j)). split; [lia |]. split; [| done].
        intros p Hp. apply Hall. lia.
    + right. exists k. split; [lia | done].
Qed.

Lemma scrape_page_wrapped w url tr :
  Crawl.fetched w url = None →
  ∃ detail,
    scrape_page url w tr
    = (inl (PlainException (String.append Log.http_error_prefix detail)),
       tr ++ [EvGet url]) ∨
    scrape_page url w tr
    = (inl (PlainException (String.append Log.scraping_error_prefix detail)),
       tr ++ [EvGet url]).
Proof.
  intros Hf.
  assert (∃ detail (http : bool),
            scrape_page url w tr
            = (inl (PlainException
                      (String.append (if http then Log.http_error_prefix
                                      else Log.scraping_error_prefix) detail)),
               tr ++ [EvGet url])) as (detail & http & H).
  { revert Hf. unfold Crawl.fetched, scrape_page, Py.try_except. intros Hf.
    unfold mbind at 1, Scr_bind, Py.requests_get.
    destruct (w url) as [e | resp].
    - exists (str_of_exn e).
      destruct e; [exists true | exists false ..]; reflexivity.
    - unfold mbind at 1, Scr_bind, Py.raise_for_status.
      case_bool_decide; [| done]. eexists _, true. reflexivity. }
  exists detail. destruct http; [by left | by right].
Qed.

Lemma paced_blocks (u : string) (cs : list Container) (t : list Event) :
  (t = [] ∨ ∃ t', t = EvSleep :: t') →
  Log.paced (EvGet u :: concat (map Log.container_events cs) ++ t) = Log.paced t.
Proof.
  intros Ht. revert u. induction cs as [| c cs IH]; intros u.
  - destruct Ht as [-> | [t' ->]]; reflexivity.
  - change (concat (map Log.container_events (c :: cs)))
      with (Log.container_events c ++ concat (map Log.container_events cs)).
    unfold Log.container_events at 1.
    destruct (Crawl.detail_url c) as [url |]; [| apply IH].
    change (Log.paced (EvGet url :: concat (map Log.container_events cs) ++ t)
            = Log.paced t).
    apply IH.
Qed.

Lemma paced_page w url (t : list Event) :
  (t = [] ∨ ∃ t', t = EvSleep :: t') →
  Log.paced (Log.page_events w url ++ t) = Log.paced t.
Proof.
  intros Ht. unfold Log.page_events.
  destruct (Crawl.fetched w url) as [soup |].
  - by apply paced_blocks.
  - by apply (paced_blocks url []).
Qed.

(** Pages that are not the last one end on a sleep. *)
Lemma paced_pages w base_url num_pages pages (t : list Event) :
  (∀ p, p ∈ pages → p < num_pages) →
  Log.paced t = true →
  Log.paced (Log.crawl_events w base_url num_pages pages ++ t) = true.
Proof.
  intros Hlt Ht. induction pages as [| p pages IH]; [done |].
  rewrite crawl_events_cons, bool_decide_eq_true_2 by (apply Hlt; by left).
  rewrite <- !app_assoc. rewrite paced_page by (right; by eexists).
  apply IH. intros q Hq. apply Hlt. by right.
Qed.

Lemma crawl_events_app w base_url num_pages l1 l2 :
  Log.crawl_events w base_url num_pages (l1 ++ l2)
  = Log.crawl_events w base_url num_pages l1 ++
    Log.crawl_events w base_url num_pages l2.
Proof. unfold Log.crawl_events. by rewrite map_app, concat_app. Qed.

Lemma paced_crawl w base_url num_pages :
  Log.paced (Log.crawl_events w base_url num_pages (seqZ 1 num_pages)) = true.
Proof.
  destruct (decide (1 ≤ num_pages)) as [Hn | Hn].
  - rewrite (seqZ_split num_pages num_pages) by lia.
    rewrite Z.sub_diag, crawl_events_app. apply paced_pages.
    + intros p Hp. apply elem_of_seqZ in Hp. lia.
    + change (seqZ (num_pages + 1) 0) with (@nil Z).
      rewrite crawl_events_cons, bool_decide_eq_false_2 by lia.
      rewrite !app_nil_r. rewrite <- (app_nil_r (Log.page_events _ _)).
      rewrite paced_page; [done | by left].
  - replace (seqZ 1 num_pages) with (@nil Z); [done |].
    unfold seqZ. by replace (Z.to_nat num_pages) with 0%nat by lia.
Qed.

Lemma scrape_pages_raise w base_url num_pages all_data tr e tr' :
  scrape_pages base_url num_pages (seqZ 1 num_pages) all_data w tr = (inl e, tr') →
  ∃ k msg,
    1 ≤ k ≤ num_pages ∧
    (∀ p, 1 ≤ p < k → is_Some (Crawl.fetched w (Crawl.page_url base_url p))) ∧
    Crawl.fetched w (Crawl.page_url base_url k) = None ∧
    e = PlainException msg ∧
    tr' = tr ++ Log.crawl_events w base_url num_pages (seqZ 1 (k - 1)) ++
            [EvGet (Crawl.page_url base_url k)].
Proof.
  intros Hrun.
  destruct (first_failure w base_url (Z.to_nat num_pages))
    as [Hall | (k & Hk & Hbefore & Hfail)].
  - rewrite scrape_pages_log in Hrun; [done |].
    intros p Hp. apply elem_of_seqZ in Hp. apply Hall. lia.
  - assert (1 ≤ k ≤ num_pages) as Hk' by lia.
    rewrite (seqZ_split k num_pages Hk') in Hrun.
    destruct (scrape_pages_abort w base_url num_pages (seqZ 1 (k - 1)) k
                (seqZ (k + 1) (num_pages - k)) all_data tr) as [msg Hmsg];
      [| done |].
    { intros p Hp. apply elem_of_seqZ in Hp. apply Hbefore. lia. }
    rewrite Hmsg in Hrun. injection Hrun as <- <-.
    by exists k, msg.
Qed.

(* ===================================================================== *)
(** ** Properties of the crawler                                          *)
(* ===================================================================== *)

(** X1. A listing page that is not fetched (the site does not answer,
    or answers with a 4xx or 5xx status) makes [scrape_page] raise a
    plain exception whose text starts with one of the two prefixes of
    the function; the request of the page is the only thing it did. *)
Theorem listing_failure_wrapped (w : World) (url : string) (tr : list Event) :
  Crawl.fetched w url = None →
  ∃ detail,
    scrape_page url w tr
    = (inl (PlainException (String.append Log.http_error_prefix detail)),
       tr ++ [EvGet url]) ∨
    scrape_page url w tr
    = (inl (PlainException (String.append Log.scraping_error_prefix detail)),
       tr ++ [EvGet url]).
Proof. apply scrape_page_wrapped. Qed.

Lemma listing_failure_wrapped_witness :
  Crawl.fetched offline_site "https://sn.coinafrique.com/categorie/chiens" = None ∧
  ∃ detail,
    scrape_page "https://sn.coinafrique.com/categorie/chiens" offline_site []
    = (inl (PlainException (String.append Log.http_error_prefix detail)),
       [] ++ [EvGet "https://sn.coinafrique.com/categorie/chiens"]) ∨
    scrape_page "https://sn.coinafrique.com/categorie/chiens" offline_site []
    = (inl (PlainException (String.append Log.scraping_error_prefix detail)),
       [] ++ [EvGet "https://sn.coinafrique.com/categorie/chiens"]).
Proof.
  assert (H : Crawl.fetched offline_site
                "https://sn.coinafrique.com/categorie/chiens" = None)
    by reflexivity.
  exact (conj H (listing_failure_wrapped offline_site _ [] H)).
Defined.

(** X2. A listing page that is fetched costs its own request, then for
    each container with a link one sleep followed by one request of the
    detail page, in document order; a container without a link costs
    nothing, and a page without containers costs its request alone. *)
Theorem page_requests (w : World) (url : string) (soup : Soup) (tr : list Event) :
  Crawl.fetched w url = Some soup →
  snd (scrape_page url w tr)
  = tr ++ EvGet url ::
      concat (map (λ c, match Crawl.detail_url c with
                        | Some u => [EvSleep; EvGet u]
                        | None => []
                        end) (find_all_containers soup)).
Proof.
  intros Hf. rewrite (scrape_page_log w url soup tr Hf).
  unfold Log.page_events. by rewrite Hf.
Qed.

Lemma page_requests_witness :
  Crawl.fetched sample_site "https://sn.coinafrique.com/categorie/chiens"
  = Some sample_listing ∧
  snd (scrape_page "https://sn.coinafrique.com/categorie/chiens" sample_site [])
  = [] ++ EvGet "https://sn.coinafrique.com/categorie/chiens" ::
      concat (map (λ c, match Crawl.detail_url c with
                        | Some u => [EvSleep; EvGet u]
                        | None => []
                        end) (find_all_containers sample_listing)).
Proof.
  assert (H : Crawl.fetched sample_site
                "https://sn.coinafrique.com/categorie/chiens" = Some sample_listing)
    by reflexivity.
  exact (conj H (page_requests sample_site _ sample_listing [] H)).
Defined.

(** X3. Asked for no page (zero or a negative number), the crawl of a
    known category makes no request and no sleep, and returns the empty
    table, which has no columns. *)
Theorem no_pages_no_request (category base_url : string) (num_pages : Z)
    (w : World) (tr : list Event) :
  CATEGORIES !! category = Some base_url →
  num_pages ≤ 0 →
  scrape_category category num_pages w tr = (inr (mkDF [] []), tr).
Proof.
  intros Hcat Hn. unfold scrape_category. rewrite Hcat.
  replace (seqZ 1 num_pages) with (@nil Z)
    by (unfold seqZ; by replace (Z.to_nat num_pages) with 0%nat by lia).
  reflexivity.
Qed.

Lemma no_pages_no_request_witness :
  CATEGORIES !! "moutons" = Some "https://sn.coinafrique.com/categorie/moutons" ∧
  (-1 ≤ 0) ∧
  scrape_category "moutons" (-1) sample_site [] = (inr (mkDF [] []), []).
Proof.
  assert (H1 : CATEGORIES !! "moutons"
               = Some "https://sn.coinafrique.com/categorie/moutons") by reflexivity.
  assert (H2 : -1 ≤ 0) by lia.
  exact (conj H1 (conj H2 (no_pages_no_request "moutons" _ (-1) sample_site [] H1 H2))).
Defined.

(** X4. When the listing pages before page [k] are fetched and page [k]
    is not, the crawl raises a plain exception and returns no table:
    what the earlier pages gave is lost, the request of page [k] is the
    last thing the crawl does, and no later page is asked for. *)
Theorem crawl_stops_at_failed_page (category base_url : string) (num_pages k : Z)
    (w : World) (tr : list Event) :
  CATEGORIES !! category = Some base_url →
  1 ≤ k ≤ num_pages →
  (∀ p, 1 ≤ p < k → is_Some (Crawl.fetched w (Crawl.page_url base_url p))) →
  Crawl.fetched w (Crawl.page_url base_url k) = None →
  ∃ msg,
    scrape_category category num_pages w tr
    = (inl (PlainException msg),
       tr ++ Log.crawl_events w base_url num_pages (seqZ 1 (k - 1)) ++
         [EvGet (Crawl.page_url base_url k)]).
Proof.
  intros Hcat Hk Hbefore Hfail. unfold scrape_category. rewrite Hcat.
  rewrite (seqZ_split k num_pages Hk).
  destruct (scrape_pages_abort w base_url num_pages (seqZ 1 (k - 1)) k
              (seqZ (k + 1) (num_pages - k)) [] tr) as [msg Hmsg]; [| done |].
  { intros p Hp. apply elem_of_seqZ in Hp. apply Hbefore. lia. }
  exists msg. by erewrite scr_bind_raise by exact Hmsg.
Qed.

Lemma crawl_stops_at_failed_page_witness :
  CATEGORIES !! "chiens" = Some "https://sn.coinafrique.com/categorie/chiens" ∧
  (1 ≤ 2 ≤ 3) ∧
  Crawl.fetched sample_site
    (Crawl.page_url "https://sn.coinafrique.com/categorie/chiens" 2) = None ∧
  ∃ msg,
    scrape_category "chiens" 3 sample_site []
    = (inl (PlainException msg),
       [] ++ Log.crawl_events sample_site
               "https://sn.coinafrique.com/categorie/chiens" 3 (seqZ 1 (2 - 1)) ++
         [EvGet (Crawl.page_url "https://sn.coinafrique.com/categorie/chiens" 2)]).
Proof.
  assert (H1 : CATEGORIES !! "chiens"
               = Some "https://sn.coinafrique.com/categorie/chiens") by reflexivity.
  assert (H2 : 1 ≤ 2 ≤ 3) by lia.
  assert (H3 : ∀ p, 1 ≤ p < 2 →
            is_Some (Crawl.fetched sample_site
              (Crawl.page_url "https://sn.coinafrique.com/categorie/chiens" p))).
  { intros p Hp. replace p with 1 by lia. by eexists. }
  assert (H4 : Crawl.fetched sample_site
            (Crawl.page_url "https://sn.coinafrique.com/categorie/chiens" 2) = None)
    by reflexivity.
  exact (conj H1 (conj H2 (conj H4
    (crawl_stops_at_failed_page "chiens" _ 3 2 sample_site [] H1 H2 H3 H4)))).
Defined.

(** X5. When every listing page is fetched, the crawl asks for the
    pages in order, page 1 at the base URL and page [n] at
    [?page=n], each followed by the requests of its items, and sleeps
    after every page but the last. *)
Theorem crawl_requests (category base_url : string) (num_pages : Z)
    (w : World) (tr : list Event) :
  CATEGORIES !! category = Some base_url →
  (∀ p, p ∈ seqZ 1 num_pages →
        is_Some (Crawl.fetched w (Crawl.page_url base_url p))) →
  snd (scrape_category category num_pages w tr)
  = tr ++ concat (map (λ p, Log.page_events w (Crawl.page_url base_url p) ++
                            if bool_decide (p < num_pages) then [EvSleep] else [])
                    (seqZ 1 num_pages)).
Proof.
  intros Hcat Hok. unfold scrape_category. rewrite Hcat.
  erewrite scr_bind_run by (by apply scrape_pages_log).
  by rewrite cleaned_spec.
Qed.

Lemma crawl_requests_witness :
  CATEGORIES !! "chiens" = Some "https://sn.coinafrique.com/categorie/chiens" ∧
  snd (scrape_category "chiens" 1 sample_site [])
  = [] ++ concat (map (λ p, Log.page_events sample_site
                              (Crawl.page_url
                                 "https://sn.coinafrique.com/categorie/chiens" p) ++
                            if bool_decide (p < 1) then [EvSleep] else [])
                    (seqZ 1 1)).
Proof.
  assert (H1 : CATEGORIES !! "chiens"
               = Some "https://sn.coinafrique.com/categorie/chiens") by reflexivity.
  refine (conj H1 (crawl_requests "chiens" _ 1 sample_site [] H1 _)).
  intros p Hp. vm_compute in Hp. apply list_elem_of_singleton in Hp as ->.
  vm_compute. by eexists.
Defined.

(** X6. The crawl of a known category raises only when a listing page
    is not fetched, and then a plain exception: a failure of an item
    never reaches the caller, and the error of an unknown category is
    never raised for a known one. *)
Theorem crawl_raises_on_listing_only (category base_url : string) (num_pages : Z)
    (w : World) (tr tr' : list Event) (e : Exn) :
  CATEGORIES !! category = Some base_url →
  scrape_category category num_pages w tr = (inl e, tr') →
  (∃ msg, e = PlainException msg) ∧
  ∃ k, 1 ≤ k ≤ num_pages ∧
       Crawl.fetched w (Crawl.page_url base_url k) = None.
Proof.
  intros Hcat. unfold scrape_category. rewrite Hcat.
  unfold mbind at 1, Scr_bind.
  destruct (scrape_pages base_url num_pages (seqZ 1 num_pages) [] w tr)
    as [[e0 | items] tr0] eqn:Hrun.
  - intros [= <- <-].
    destruct (scrape_pages_raise _ _ _ _ _ _ _ Hrun)
      as (k & msg & Hk & _ & Hfail & -> & _).
    split; [by eexists | by exists k].
  - by rewrite cleaned_spec.
Qed.

Lemma crawl_raises_on_listing_only_witness :
  CATEGORIES !! "chiens" = Some "https://sn.coinafrique.com/categorie/chiens" ∧
  scrape_category "chiens" 1 offline_site []
  = (inl (PlainException (String.append Log.http_error_prefix "unreachable")),
     [EvGet "https://sn.coinafrique.com/categorie/chiens"]) ∧
  (∃ msg, PlainException (String.append Log.http_error_prefix "unreachable")
          = PlainException msg) ∧
  ∃ k, 1 ≤ k ≤ 1 ∧
       Crawl.fetched offline_site
         (Crawl.page_url "https://sn.coinafrique.com/categorie/chiens" k) = None.
Proof.
  assert (H1 : CATEGORIES !! "chiens"
               = Some "https://sn.coinafrique.com/categorie/chiens") by reflexivity.
  assert (H2 : scrape_category "chiens" 1 offline_site []
               = (inl (PlainException
                         (String.append Log.http_error_prefix "unreachable")),
                  [EvGet "https://sn.coinafrique.com/categorie/chiens"]))
    by reflexivity.
  exact (conj H1 (conj H2
    (crawl_raises_on_listing_only "chiens" _ 1 offline_site [] _ _ H1 H2))).
Defined.

(** X7. Whatever the site answers, the crawl never sends two requests
    without a sleep between them. *)
Theorem requests_are_paced (category : string) (num_pages : Z) (w : World) :
  Log.paced (snd (scrape_category category num_pages w [])) = true.
Proof.
  unfold scrape_category.
  destruct (CATEGORIES !! category) as [base_url |]; [| reflexivity].
  unfold mbind at 1, Scr_bind.
  destruct (scrape_pages base_url num_pages (seqZ 1 num_pages) [] w [])
    as [[e0 | items] tr0] eqn:Hrun.
  - destruct (scrape_pages_raise _ _ _ _ _ _ _ Hrun)
      as (k & msg & Hk & _ & _ & _ & ->).
    simpl. apply paced_pages; [| done].
    intros p Hp. apply elem_of_seqZ in Hp. lia.
  - rewrite cleaned_spec. simpl.
    destruct (first_failure w base_url (Z.to_nat num_pages))
      as [Hall | (k & Hk & Hbefore & Hfail)].
    + rewrite scrape_pages_log in Hrun.
      * injection Hrun as _ <-. simpl. apply paced_crawl.
      * intros p Hp. apply elem_of_seqZ in Hp. apply Hall. lia.
    + assert (1 ≤ k ≤ num_pages) as Hk' by lia.
      rewrite (seqZ_split k num_pages Hk') in Hrun.
      destruct (scrape_pages_abort w base_url num_pages (seqZ 1 (k - 1)) k
                  (seqZ (k + 1) (num_pages - k)) [] []) as [msg Hmsg]; [| done |].
      { intros p Hp. apply elem_of_seqZ in Hp. apply Hbefore. lia. }
      by rewrite Hmsg in Hrun.
Qed.

(* ===================================================================== *)
(** ** What the cleaner keeps of its input                                *)
(* ===================================================================== *)

Lemma lookup_kept (cols : list string) (m : gmap string value) (c : string) :
  c ∈ Spec.kept_columns cols →
  filter (λ kv : string * value, kv.1 ∈ Spec.kept_columns cols) m !! c = m !! c.
Proof.
  intros Hc. destruct (m !! c) as [v |] eqn:E.
  - by apply map_lookup_filter_Some_2.
  - apply map_lookup_filter_None_2. by left.
Qed.

Lemma kept_of_required cols c : c ∈ Spec.required → c ∈ cols → c ∈ Spec.kept_columns cols.
Proof. intros Hr Hc. unfold Spec.kept_columns. by apply list_elem_of_filter. Qed.

Lemma payload_step5 cols rs :
  "prix" ∈ cols → "adresse" ∈ cols → "image_lien" ∈ cols →
  map payload (Spec.step5 cols rs) = map payload rs.
Proof.
  intros Hp Ha Hi. unfold Spec.step5.
  generalize Z.of_nat as g. induction rs as [| r rs IH]; intros g; [done |].
  change (payload (mkRow (g 0%nat)
            (filter (λ kv : string * value, kv.1 ∈ Spec.kept_columns cols) (cells r)))
          :: map payload
               (imap (λ i r, mkRow ((g ∘ S) i)
                  (filter (λ kv : string * value, kv.1 ∈ Spec.kept_columns cols)
                     (cells r))) rs)
          = payload r :: map payload rs).
  f_equal; [| apply IH].
  unfold payload. simpl.
  rewrite !lookup_kept; [done | ..];
    (apply kept_of_required; [| done]); vm_compute; set_solver.
Qed.

Lemma payload_rename r n : payload (Spec.rename r n) = payload r.
Proof. unfold payload, Spec.rename. simpl. by rewrite !lookup_insert_ne. Qed.

Lemma payload_renamed rs ns :
  map payload (zip_with Spec.rename rs ns) `sublist_of` map payload rs.
Proof.
  revert ns. induction rs as [| r rs IH]; intros [| n ns]; simpl.
  - done.
  - done.
  - apply sublist_nil_l.
  - rewrite payload_rename. apply sublist_skip, IH.
Qed.

Lemma payload_step4 cols rs :
  map payload (Spec.step4 cols rs) `sublist_of` map payload rs.
Proof.
  unfold Spec.step4. case_decide; [apply payload_renamed | done].
Qed.

Lemma step1_sublist cols rs : Spec.step1 cols rs `sublist_of` rs.
Proof. unfold Spec.step1. case_decide; [apply sublist_filter | done]. Qed.

Lemma step2_sublist cols rs : Spec.step2 cols rs `sublist_of` rs.
Proof. unfold Spec.step2. case_decide; [apply sublist_filter | done]. Qed.

Lemma step3_sublist cols rs : Spec.step3 cols rs `sublist_of` rs.
Proof. unfold Spec.step3. case_decide; [apply sublist_filter | done]. Qed.

Lemma survivors_sublist d : Spec.survivors d `sublist_of` rows d.
Proof.
  unfold Spec.survivors.
  etrans; [apply step3_sublist |]. etrans; [apply step2_sublist |].
  apply step1_sublist.
Qed.

Lemma payload_clean d :
  "prix" ∈ columns d → "adresse" ∈ columns d → "image_lien" ∈ columns d →
  map payload (rows (Spec.clean d)) `sublist_of` map payload (Spec.survivors d).
Proof.
  intros Hp Ha Hi. unfold Spec.clean. simpl.
  rewrite payload_step5 by done. apply payload_step4.
Qed.

(** X8. The cleaner never writes a price, an address or an image link,
    never adds a row and never reorders rows: when the input has the
    three columns, the (price, address, image) triples of the output
    are those of the input with some of them left out. *)
Theorem payload_preserved (d : DataFrame) :
  raw d →
  "prix" ∈ columns d → "adresse" ∈ columns d → "image_lien" ∈ columns d →
  ∃ out, cleaned d = Some out ∧
         map payload (rows out) `sublist_of` map payload (rows d) ∧
         (length (rows out) ≤ length (rows d))%nat.
Proof.
  intros _ Hp Ha Hi. exists (clean_result d). split; [apply cleaned_spec |].
  assert (map payload (rows (clean_result d)) `sublist_of` map payload (rows d)) as H.
  { destruct (clean_result_cases d) as [[-> _] | [-> | ->]].
    - done.
    - apply sublist_nil_l.
    - etrans; [by apply payload_clean |].
      apply fmap_sublist, survivors_sublist. }
  split; [done |].
  apply sublist_length in H. by rewrite !length_map in H.
Qed.

Lemma payload_preserved_witness :
  raw sample_raw ∧
  ∃ out, cleaned sample_raw = Some out ∧
         map payload (rows out) `sublist_of` map payload (rows sample_raw) ∧
         (length (rows out) ≤ length (rows sample_raw))%nat.
Proof.
  assert (H : raw sample_raw) by (apply (bool_decide_unpack _); vm_compute; exact I).
  refine (conj H (payload_preserved sample_raw H _ _ _));
    apply (bool_decide_unpack _); vm_compute; exact I.
Defined.

Lemma length_clean_rows d :
  length (rows (Spec.clean d)) = length (Spec.survivors d).
Proof.
  unfold Spec.clean. simpl. rewrite length_step5. unfold Spec.step4.
  case_decide as Hn; [| done].
  rewrite length_zip_with, length_numbered, length_names by by apply survivors_named.
  lia.
Qed.

(** X9. Every row of the cleaned table has a name that is a non-empty
    string, when the input has a name column. *)
Theorem output_rows_named (d : DataFrame) :
  raw d → Frame.empty d = false → "nom" ∈ columns d →
  ∃ out, cleaned d = Some out ∧
         Forall (λ r, ∃ s, cells r !! "nom" = Some (VStr s) ∧ s ≠ EmptyString)
                (rows out).
Proof.
  intros _ He Hn. exists (clean_result d). split; [apply cleaned_spec |].
  rewrite clean_result_rows by done.
  eapply Forall_impl; [by apply cleaned_rows_named |].
  intros r. unfold Spec.has_name, Spec.name_of.
  destruct (cells r !! "nom") as [[| | s | x] |]; try done.
  intros Hs. by exists s.
Qed.

Lemma output_rows_named_witness :
  raw sample_raw ∧ Frame.empty sample_raw = false ∧
  ∃ out, cleaned sample_raw = Some out ∧
         Forall (λ r, ∃ s, cells r !! "nom" = Some (VStr s) ∧ s ≠ EmptyString)
                (rows out).
Proof.
  assert (H : raw sample_raw) by (apply (bool_decide_unpack _); vm_compute; exact I).
  assert (He : Frame.empty sample_raw = false) by reflexivity.
  refine (conj H (conj He (output_rows_named sample_raw H He _))).
  apply (bool_decide_unpack _); vm_compute; exact I.
Defined.

Lemma payload_member (l1 l2 : list Row) (r : Row) :
  map payload l1 `sublist_of` map payload l2 → r ∈ l1 →
  ∃ r0, r0 ∈ l2 ∧ payload r0 = payload r.
Proof.
  intros Hsub Hr.
  assert (payload r ∈ map payload l2) as Hin.
  { eapply sublist_subseteq; [exact Hsub |]. by apply (list_elem_of_fmap_2 payload). }
  apply list_elem_of_fmap in Hin as (r0 & Heq & Hr0). by exists r0.
Qed.

(** X10. No price text of the cleaned table contains one of the four
    keywords, whatever the case of its letters, when the input has the
    price, address and image columns. *)
Theorem output_prices_keyword_free (d : DataFrame) :
  raw d → Frame.empty d = false →
  "prix" ∈ columns d → "adresse" ∈ columns d → "image_lien" ∈ columns d →
  ∃ out, cleaned d = Some out ∧
         ∀ r t kw, r ∈ rows out → cells r !! "prix" = Some (VStr t) →
                   kw ∈ keywords →
                   PyStr.contains kw (PyStr.lower t) = false.
Proof.
  intros _ He Hp Ha Hi. exists (clean_result d). split; [apply cleaned_spec |].
  rewrite clean_result_rows by done.
  intros r t kw Hr Ht Hkw.
  destruct (payload_member _ _ r (payload_clean d Hp Ha Hi) Hr) as (r0 & Hr0 & Heq).
  unfold Spec.survivors in Hr0.
  apply (sublist_subseteq _ _ (step3_sublist _ _)) in Hr0.
  unfold Spec.step2 in Hr0. rewrite decide_True in Hr0 by done.
  apply list_elem_of_filter in Hr0 as [Hfree _].
  assert (cells r0 !! "prix" = Some (VStr t)) as Ht0.
  { unfold payload in Heq. by injection Heq as -> _ _. }
  destruct (PyStr.contains kw (PyStr.lower t)) eqn:Hc; [| done].
  exfalso. apply Hfree. unfold Spec.on_request, Spec.price_text. rewrite Ht0.
  apply Exists_exists. exists kw. split; [by rewrite <- keywords_agree |].
  by rewrite Hc.
Qed.

Lemma output_prices_keyword_free_witness :
  raw sample_raw ∧ Frame.empty sample_raw = false ∧
  ∃ out, cleaned sample_raw = Some out ∧
         ∀ r t kw, r ∈ rows out → cells r !! "prix" = Some (VStr t) →
                   kw ∈ keywords →
                   PyStr.contains kw (PyStr.lower t) = false.
Proof.
  assert (H : raw sample_raw) by (apply (bool_decide_unpack _); vm_compute; exact I).
  assert (He : Frame.empty sample_raw = false) by reflexivity.
  refine (conj H (conj He (output_prices_keyword_free sample_raw H He _ _ _)));
    apply (bool_decide_unpack _); vm_compute; exact I.
Defined.



(* ===================================================================== *)
(** ** Prices are not negative, and the filter on prices spares a row     *)
(* ===================================================================== *)

Lemma is_digit_code (c : ascii) :
  PyStr.is_digit c = true → 48 ≤ Z.of_N (N_of_ascii c) ≤ 57.
Proof.
  destruct c as [[] [] [] [] [] [] [] []]; vm_compute; intros H;
    first [discriminate H | split; intros H'; discriminate H'].
Qed.

Lemma digits_value_nonneg (s : string) (acc : Z) :
  0 ≤ acc → 0 ≤ PyStr.digits_value acc (PyStr.take_digits s).
Proof.
  revert acc. induction s as [| c s IH]; intros acc Hacc; [done |].
  simpl. destruct (PyStr.is_digit c) eqn:Hc; [| done].
  simpl. apply IH. apply is_digit_code in Hc. lia.
Qed.

Lemma findall_digits_run (s ds : string) :
  PyStr.findall_digits_first s = Some ds → ∃ s', ds = PyStr.take_digits s'.
Proof.
  induction s as [| c s IH]; [done |].
  simpl. destruct (PyStr.is_digit c) eqn:Hc.
  - intros [= <-]. exists (String c s). simpl. by rewrite Hc.
  - exact IH.
Qed.

Lemma parse_price_nonneg (t : string) (p : Z) : Spec.parse_price t = Some p → 0 ≤ p.
Proof.
  unfold Spec.parse_price.
  destruct (PyStr.findall_digits_first _) as [ds |] eqn:E; [| done].
  intros [= <-]. apply findall_digits_run in E as [s' ->].
  by apply digits_value_nonneg.
Qed.

Lemma parsed_price_nonneg (r : Row) (p : Z) : Spec.parsed_price r = Some p → 0 ≤ p.
Proof.
  unfold Spec.parsed_price. destruct (Spec.price_text r) as [t |]; [| done].
  apply parse_price_nonneg.
Qed.

Lemma below_half_mean (p total n : Z) :
  0 < n → (inject_Z p < inject_Z total / inject_Z n / 2)%Q → 2 * n * p < total.
Proof.
  intros Hn. destruct n as [| n | n]; try lia.
  unfold Qlt, Qdiv, Qmult, Qinv, inject_Z. simpl. lia.
Qed.

Lemma sum_below (l : list Z) (a b : Z) :
  (∀ p, p ∈ l → a * p < b) →
  a * foldr Z.add 0 l + Z.of_nat (length l) ≤ Z.of_nat (length l) * b.
Proof.
  induction l as [| x l IH]; intros H; [simpl; lia |].
  assert (a * x < b) by (apply H; by left).
  assert (a * foldr Z.add 0 l + Z.of_nat (length l) ≤ Z.of_nat (length l) * b)
    by (apply IH; intros p Hp; apply H; by right).
  simpl foldr. simpl length. lia.
Qed.

Lemma sum_nonneg (l : list Z) : (∀ p, p ∈ l → 0 ≤ p) → 0 ≤ foldr Z.add 0 l.
Proof.
  induction l as [| x l IH]; intros H; [done |].
  assert (0 ≤ x) by (apply H; by left).
  assert (0 ≤ foldr Z.add 0 l) by (apply IH; intros p Hp; apply H; by right).
  simpl. lia.
Qed.

Lemma parsed_member (rs : list Row) (p : Z) :
  p ∈ omap Spec.parsed_price rs → ∃ r, r ∈ rs ∧ Spec.parsed_price r = Some p.
Proof. intros H. by apply list_elem_of_omap in H. Qed.

(** The rows of a non-empty list are not all below half its mean. *)
Lemma outliers_spare (rs : list Row) :
  rs ≠ [] → filter (λ r, ¬ Spec.outlier rs r) rs ≠ [].
Proof.
  intros Hne Hnil.
  assert (∀ r, r ∈ rs → Spec.outlier rs r) as Hall.
  { intros r Hr. destruct (decide (Spec.outlier rs r)) as [Ho | Ho]; [done |].
    assert (r ∈ filter (λ r, ¬ Spec.outlier rs r) rs) as Hin
      by by apply list_elem_of_filter.
    rewrite Hnil in Hin. by apply elem_of_nil in Hin. }
  set (ps := omap Spec.parsed_price rs).
  assert (length ps = length rs) as Hlen.
  { unfold ps.
    assert (∀ l : list Row, (∀ r, r ∈ l → Spec.outlier rs r) →
              length (omap Spec.parsed_price l) = length l) as Hgen.
    { induction l as [| r l IH]; intros Hl; [done |].
      assert (Spec.outlier rs r) as Ho by (apply Hl; by left).
      apply outlier_words in Ho as (p & Hp & _).
      simpl. rewrite Hp. simpl. f_equal. apply IH.
      intros r' Hr'. apply Hl. by right. }
    by apply Hgen. }
  assert (0 < Z.of_nat (length ps)) as Hpos.
  { rewrite Hlen. destruct rs; [done | simpl; lia]. }
  assert (∀ p, p ∈ ps →
            2 * Z.of_nat (length ps) * p < foldr Z.add 0 ps) as Hlow.
  { intros p Hp. apply parsed_member in Hp as (r & Hr & Hpr).
    specialize (Hall r Hr). apply outlier_words in Hall as (q & Hq & Hlt).
    rewrite Hpr in Hq. injection Hq as <-.
    by apply below_half_mean. }
  apply sum_below in Hlow.
  assert (0 ≤ foldr Z.add 0 ps) as Hsum.
  { apply sum_nonneg. intros p Hp. apply parsed_member in Hp as (r & _ & Hpr).
    by eapply parsed_price_nonneg. }
  nia.
Qed.

(** X12. The filter on prices never empties the table: when some row
    passes the filters on names and on keywords, and the sum of the
    prices read from those rows is below 2^53, so that float64 holds
    every value exactly, the cleaned table has at least one row. *)
Theorem outliers_never_empty (d : DataFrame) :
  raw d → Frame.empty d = false →
  Spec.step2 (columns d) (Spec.step1 (columns d) (rows d)) ≠ [] →
  exact_floats (Spec.step2 (columns d) (Spec.step1 (columns d) (rows d))) →
  ∃ out, cleaned d = Some out ∧ rows out ≠ [].
Proof.
  intros _ He Hsome _. exists (clean_result d). split; [apply cleaned_spec |].
  rewrite clean_result_rows by done.
  intros Hnil. apply (f_equal length) in Hnil.
  rewrite length_clean_rows in Hnil. apply nil_length_inv in Hnil.
  revert Hnil. unfold Spec.survivors, Spec.step3.
  case_decide; [by apply outliers_spare | done].
Qed.

Lemma outliers_never_empty_witness :
  raw sample_raw ∧ Frame.empty sample_raw = false ∧
  Spec.step2 (columns sample_raw) (Spec.step1 (columns sample_raw) (rows sample_raw))
  ≠ [] ∧
  exact_floats (Spec.step2 (columns sample_raw)
                  (Spec.step1 (columns sample_raw) (rows sample_raw))) ∧
  ∃ out, cleaned sample_raw = Some out ∧ rows out ≠ [].
Proof.
  assert (H : raw sample_raw) by (apply (bool_decide_unpack _); vm_compute; exact I).
  assert (He : Frame.empty sample_raw = false) by reflexivity.
  assert (Hs : Spec.step2 (columns sample_raw)
                 (Spec.step1 (columns sample_raw) (rows sample_raw)) ≠ [])
    by (apply (bool_decide_unpack _); vm_compute; exact I).
  assert (Hx : exact_floats (Spec.step2 (columns sample_raw)
                               (Spec.step1 (columns sample_raw) (rows sample_raw))))
    by (apply (bool_decide_unpack _); vm_compute; exact I).
  exact (conj H (conj He (conj Hs (conj Hx
           (outliers_never_empty sample_raw H He Hs Hx))))).
Defined.

(* ===================================================================== *)
(** ** The reference the cleaner returns                                  *)
(* ===================================================================== *)



(* ===================================================================== *)
(** ** Reading a price that is written in decimal                         *)
(* ===================================================================== *)

Ltac digit_code :=
  repeat match goal with
  | |- context [Z.of_N (N_of_ascii ?c)] =>
      let v := eval vm_compute in (Z.of_N (N_of_ascii c)) in
      change (Z.of_N (N_of_ascii c)) with v
  end.

Lemma replace_space_digits (d : Decimal.uint) (rest : string) :
  PyStr.replace_from " " "" 0 (String.append (NilEmpty.string_of_uint d) rest)
  = String.append (NilEmpty.string_of_uint d) (PyStr.replace_from " " "" 0 rest).
Proof. induction d; simpl; [done | by rewrite IHd ..]. Qed.

Lemma replace_CFA_digits (d : Decimal.uint) (rest : string) :
  PyStr.replace_from "CFA" "" 0 (String.append (NilEmpty.string_of_uint d) rest)
  = String.append (NilEmpty.string_of_uint d) (PyStr.replace_from "CFA" "" 0 rest).
Proof. induction d; simpl; [done | by rewrite IHd ..]. Qed.

Lemma take_digits_uint (d : Decimal.uint) :
  PyStr.take_digits (NilEmpty.string_of_uint d) = NilEmpty.string_of_uint d.
Proof. induction d; simpl; [done | by rewrite IHd ..]. Qed.

Lemma findall_digits_uint (d : Decimal.uint) :
  d ≠ Decimal.Nil →
  PyStr.findall_digits_first (NilEmpty.string_of_uint d)
  = Some (NilEmpty.string_of_uint d).
Proof.
  intros Hd. pose proof (take_digits_uint d) as Ht.
  destruct d; [done | ..]; simpl in *; by rewrite Ht.
Qed.

Lemma digits_value_uint (d : Decimal.uint) (a : nat) :
  PyStr.digits_value (Z.of_nat a) (NilEmpty.string_of_uint d)
  = Z.of_nat (Nat.of_uint_acc d a).
Proof.
  revert a. induction d; intros a; [done | ..];
    simpl NilEmpty.string_of_uint; simpl Nat.of_uint_acc; simpl PyStr.digits_value;
    rewrite <- IHd; f_equal; rewrite Nat.tail_mul_spec; digit_code; lia.
Qed.

Lemma digits_value_shift (d : Decimal.uint) (acc : Z) :
  PyStr.digits_value acc (NilEmpty.string_of_uint d)
  = acc * 10 ^ Z.of_nat (Decimal.nb_digits d)
    + PyStr.digits_value 0 (NilEmpty.string_of_uint d).
Proof.
  revert acc. induction d; intros acc;
    [simpl; lia | ..];
    simpl NilEmpty.string_of_uint; simpl PyStr.digits_value; simpl Decimal.nb_digits;
    rewrite Nat2Z.inj_succ, Z.pow_succ_r by lia;
    rewrite IHd; rewrite (IHd (_ + _)); digit_code; lia.
Qed.

Lemma digits_value_app (s1 s2 : string) (acc : Z) :
  PyStr.digits_value acc (String.append s1 s2)
  = PyStr.digits_value (PyStr.digits_value acc s1) s2.
Proof. revert acc. induction s1 as [| c s1 IH]; intros acc; [done | apply IH]. Qed.

Lemma append_empty (s : string) : String.append s "" = s.
Proof.
  induction s as [| c s IH]; [done |].
  change (String c (String.append s "") = String c s). by rewrite IH.
Qed.

Lemma to_uint_nonnil (n : nat) : Nat.to_uint n ≠ Decimal.Nil.
Proof.
  rewrite <- (DecimalNat.Unsigned.of_to n) at 1.
  rewrite DecimalNat.Unsigned.to_of. apply DecimalFacts.unorm_nonnil.
Qed.

Lemma float_of_uint (d : Decimal.uint) :
  PyStr.float_of_digits (NilEmpty.string_of_uint d) = Z.of_nat (Nat.of_uint d).
Proof. apply (digits_value_uint d 0). Qed.

(** X14. A price below 2^53 written as a number in decimal, alone or
    followed by the currency marker, is read back by step 3 as that
    number. *)
Theorem printed_price_read_back (n : nat) :
  Z.of_nat n < 2 ^ 53 →
  prix_num_of (VStr (PyStr.of_nat n)) = VFloat (Z.of_nat n) ∧
  prix_num_of (VStr (String.append (PyStr.of_nat n) " CFA")) = VFloat (Z.of_nat n).
Proof.
  intros _.
  unfold prix_num_of, PyStr.of_nat, PyStr.replace. simpl Cell.to_str.
  pose proof (to_uint_nonnil n) as Hn.
  split.
  - rewrite <- (append_empty (NilEmpty.string_of_uint (Nat.to_uint n))).
    rewrite replace_space_digits, replace_CFA_digits. simpl PyStr.replace_from.
    rewrite append_empty, findall_digits_uint, float_of_uint by done.
    by rewrite DecimalNat.Unsigned.of_to.
  - rewrite replace_space_digits. simpl PyStr.replace_from.
    rewrite replace_CFA_digits. simpl PyStr.replace_from.
    rewrite append_empty, findall_digits_uint, float_of_uint by done.
    by rewrite DecimalNat.Unsigned.of_to.
Qed.

Lemma printed_price_read_back_witness :
  Z.of_nat 250 < 2 ^ 53 ∧
  prix_num_of (VStr (PyStr.of_nat 250)) = VFloat (Z.of_nat 250) ∧
  prix_num_of (VStr (String.append (PyStr.of_nat 250) " CFA"))
  = VFloat (Z.of_nat 250).
Proof.
  assert (H : Z.of_nat 250 < 2 ^ 53) by (vm_compute; reflexivity).
  exact (conj H (printed_price_read_back 250 H)).
Defined.

(** X15. A space between two groups of digits is ignored: a price
    written as two groups and the currency marker is read as the first
    group shifted by the length of the second, plus the second, when
    that number is below 2^53. *)
Theorem grouped_price_read (d1 d2 : Decimal.uint) :
  d1 ≠ Decimal.Nil →
  Z.of_nat (Nat.of_uint d1) * 10 ^ Z.of_nat (Decimal.nb_digits d2)
  + Z.of_nat (Nat.of_uint d2) < 2 ^ 53 →
  prix_num_of
    (VStr (String.append (NilEmpty.string_of_uint d1)
             (String.append " "
                (String.append (NilEmpty.string_of_uint d2) " CFA"))))
  = VFloat (Z.of_nat (Nat.of_uint d1) * 10 ^ Z.of_nat (Decimal.nb_digits d2)
            + Z.of_nat (Nat.of_uint d2)).
Proof.
  intros Hd _. unfold prix_num_of, PyStr.replace. simpl Cell.to_str.
  rewrite replace_space_digits.
  change (PyStr.replace_from " " "" 0
            (String.append " " (String.append (NilEmpty.string_of_uint d2) " CFA")))
    with (PyStr.replace_from " " "" 0
            (String.append (NilEmpty.string_of_uint d2) " CFA")).
  rewrite replace_space_digits. simpl PyStr.replace_from.
  rewrite replace_CFA_digits, replace_CFA_digits. simpl PyStr.replace_from.
  rewrite append_empty.
  assert (PyStr.findall_digits_first
            (String.append (NilEmpty.string_of_uint d1) (NilEmpty.string_of_uint d2))
          = Some (String.append (NilEmpty.string_of_uint d1)
                    (NilEmpty.string_of_uint d2))) as ->.
  { pose proof (take_digits_uint d2) as H2.
    assert (∀ d, PyStr.take_digits
                   (String.append (NilEmpty.string_of_uint d)
                      (NilEmpty.string_of_uint d2))
                 = String.append (NilEmpty.string_of_uint d)
                     (NilEmpty.string_of_uint d2)) as Ht
      by (induction d; simpl; [done | by rewrite IHd ..]).
    specialize (Ht d1). destruct d1; [done | ..]; simpl in *; by rewrite Ht. }
  f_equal. unfold PyStr.float_of_digits.
  rewrite digits_value_app, digits_value_shift.
  rewrite <- !float_of_uint. reflexivity.
Qed.

Lemma grouped_price_read_witness :
  Decimal.D2 (Decimal.D5 Decimal.Nil) ≠ Decimal.Nil ∧
  25 * 10 ^ 3 + 0 < 2 ^ 53 ∧
  prix_num_of (VStr "25 000 CFA") = VFloat 25000.
Proof.
  assert (H : Decimal.D2 (Decimal.D5 Decimal.Nil) ≠ Decimal.Nil) by discriminate.
  assert (Hb : 25 * 10 ^ 3 + 0 < 2 ^ 53) by (vm_compute; reflexivity).
  exact (conj H (conj Hb
           (grouped_price_read (Decimal.D2 (Decimal.D5 Decimal.Nil))
              (Decimal.D0 (Decimal.D0 (Decimal.D0 Decimal.Nil))) H Hb))).
Defined.

Lemma findall_digits_stop (d : Decimal.uint) (c : ascii) (rest : string) :
  d ≠ Decimal.Nil → PyStr.is_digit c = false →
  PyStr.findall_digits_first
    (String.append (NilEmpty.string_of_uint d) (String c rest))
  = Some (NilEmpty.string_of_uint d).
Proof.
  intros Hd Hc.
  assert (∀ d', PyStr.take_digits
                  (String.append (NilEmpty.string_of_uint d') (String c rest))
                = NilEmpty.string_of_uint d') as Ht.
  { induction d'; simpl; [by rewrite Hc | by rewrite IHd' ..]. }
  specialize (Ht d). destruct d; [done | ..]; simpl in *; by rewrite Ht.
Qed.

(** X16. The number read from a price stops at the first dot: whatever
    follows the dot, digits or not, is lost, so that a price written
    with dots between the thousands is read as its first group, when
    that group is a number below 2^53. *)
Theorem dotted_price_cut (d : Decimal.uint) (rest : string) :
  d ≠ Decimal.Nil →
  Z.of_nat (Nat.of_uint d) < 2 ^ 53 →
  prix_num_of (VStr (String.append (NilEmpty.string_of_uint d) (String "." rest)))
  = VFloat (Z.of_nat (Nat.of_uint d)).
Proof.
  intros Hd _. unfold prix_num_of, PyStr.replace. simpl Cell.to_str.
  rewrite replace_space_digits.
  change (PyStr.replace_from " " "" 0 (String "." rest))
    with (String "." (PyStr.replace_from " " "" 0 rest)).
  rewrite replace_CFA_digits.
  change (PyStr.replace_from "CFA" "" 0 (String "." ?x))
    with (String "." (PyStr.replace_from "CFA" "" 0 x)).
  rewrite findall_digits_stop by done.
  by rewrite float_of_uint.
Qed.

Lemma dotted_price_cut_witness :
  Decimal.D1 Decimal.Nil ≠ Decimal.Nil ∧
  1 < 2 ^ 53 ∧
  prix_num_of (VStr "1.500.000 CFA") = VFloat 1.
Proof.
  assert (H : Decimal.D1 Decimal.Nil ≠ Decimal.Nil) by discriminate.
  assert (Hb : 1 < 2 ^ 53) by (vm_compute; reflexivity).
  exact (conj H (conj Hb
           (dotted_price_cut (Decimal.D1 Decimal.Nil) "500.000 CFA" H Hb))).
Defined.

(* ===================================================================== *)
(** ** The table a crawl returns, and saving it                           *)
(* ===================================================================== *)

Lemma item_of_named w c it : Crawl.item_of w c = Some it → nom it ≠ EmptyString.
Proof.
  unfold Crawl.item_of.
  destruct (Crawl.detail_url c) as [url |]; [| done]. simpl.
  destruct (Crawl.fetched w url) as [soup |]; [| done]. simpl.
  destruct (Crawl.extracted soup) as [[[[[| ch n] |] p] a] |]; try done.
  by intros [= <-].
Qed.

Lemma page_items_named w url : Forall (λ it, nom it ≠ EmptyString) (Crawl.page_items w url).
Proof.
  unfold Crawl.page_items. destruct (Crawl.fetched w url) as [soup |]; [| constructor].
  apply Forall_forall. intros it Hit.
  apply list_elem_of_omap in Hit as (c & _ & Hc). by eapply item_of_named.
Qed.

Lemma crawl_items_named w base_url pages :
  Forall (λ it, nom it ≠ EmptyString)
    (concat (map (λ p, Crawl.page_items w (Crawl.page_url base_url p)) pages)).
Proof.
  induction pages as [| p pages IH]; [constructor |].
  simpl. apply Forall_app. split; [apply page_items_named | exact IH].
Qed.

Lemma item_rows_named (items : list Item) (g : nat → Z) :
  Forall (λ it, nom it ≠ EmptyString) items →
  Forall Spec.has_name (imap (λ i it, mkRow (g i) (cells_of_item it)) items).
Proof.
  intros H. revert g. induction H as [| it items Hit _ IH]; intros g; [constructor |].
  constructor; [| apply (IH (g ∘ S))].
  unfold Spec.has_name, Spec.name_of, cells_of_item. simpl.
  by rewrite lookup_insert_eq.
Qed.

Lemma item_cells_raw (it : Item) :
  map_Forall (λ (_ : string) (v : value), raw_value v) (cells_of_item it).
Proof.
  unfold cells_of_item. destruct it as [n [p |] [a |] [i |]]; simpl;
    repeat (apply map_Forall_insert_2; [exact I |]); apply map_Forall_empty.
Qed.

Lemma item_rows_raw_from (items : list Item) (g : nat → Z) :
  Forall (λ r, map_Forall (λ (_ : string) (v : value), raw_value v) (cells r))
    (imap (λ i it, mkRow (g i) (cells_of_item it)) items).
Proof.
  revert g. induction items as [| it items IH]; intros g; [by apply Forall_nil |].
  rewrite imap_cons. apply Forall_cons_2; [apply item_cells_raw | apply (IH (g ∘ S))].
Qed.

Lemma item_rows_raw (items : list Item) : raw (DataFrame_of items).
Proof.
  unfold raw, DataFrame_of. destruct items as [| it0 items0]; [by apply Forall_nil |].
  apply item_rows_raw_from.
Qed.

Lemma crawl_table (items : list Item) :
  Forall (λ it, nom it ≠ EmptyString) items → items ≠ [] →
  let T := clean_result (DataFrame_of items) in
  columns T = ["nom"; "prix"; "adresse"; "image_lien"] ∧
  map label (rows T) = map Z.of_nat (seq 0 (length (rows T))) ∧
  (length (rows T) ≤ length items)%nat.
Proof.
  intros Hnamed Hne T. subst T.
  destruct items as [| it0 items0]; [done |].
  set (items := it0 :: items0) in *.
  set (d := mkDF ["nom"; "prix"; "adresse"; "image_lien"]
              (imap (λ i it, mkRow (Z.of_nat i) (cells_of_item it)) items)).
  change (DataFrame_of items) with d.
  assert (Frame.empty d = false) as He by reflexivity.
  assert (Spec.step1 (columns d) (rows d) = rows d) as H1.
  { unfold Spec.step1. rewrite decide_True by (vm_compute; set_solver).
    apply filter_all. by apply item_rows_named. }
  rewrite clean_result_rules by (rewrite ?H1; done).
  split_and!.
  - reflexivity.
  - unfold Spec.clean. simpl rows. by rewrite step5_labels, length_step5.
  - rewrite length_clean_rows.
    etrans; [apply sublist_length, survivors_sublist |].
    unfold d. simpl. by rewrite length_imap.
Qed.

Lemma crawl_result w base_url num_pages category tr :
  CATEGORIES !! category = Some base_url →
  (∀ p, p ∈ seqZ 1 num_pages →
        is_Some (Crawl.fetched w (Crawl.page_url base_url p))) →
  fst (scrape_category category num_pages w tr)
  = inr (clean_result (DataFrame_of
           (concat (map (λ p, Crawl.page_items w (Crawl.page_url base_url p))
                      (seqZ 1 num_pages))))).
Proof.
  intros Hcat Hok. unfold scrape_category. rewrite Hcat.
  erewrite scr_bind_run by (by apply scrape_pages_log).
  by rewrite cleaned_spec.
Qed.

Lemma crawl_table_cases (items : list Item) :
  Forall (λ it, nom it ≠ EmptyString) items →
  let T := clean_result (DataFrame_of items) in
  (columns T = [] ∧ rows T = [] ∨
   columns T = ["nom"; "prix"; "adresse"; "image_lien"] ∧
   map label (rows T) = map Z.of_nat (seq 0 (length (rows T)))) ∧
  (length (rows T) ≤ length items)%nat.
Proof.
  intros Hnamed T. destruct items as [| it0 items0] eqn:E.
  - split; [by left | done].
  - destruct (crawl_table (it0 :: items0) Hnamed) as (Hc & Hl & Hn); [done |].
    split; [by right | done].
Qed.

Lemma empty_no_rows (T : DataFrame) :
  (columns T = [] ∧ rows T = [] ∨
   columns T = ["nom"; "prix"; "adresse"; "image_lien"]) →
  Frame.empty T = true ↔ rows T = [].
Proof.
  unfold Frame.empty. intros [[-> ->] | ->]; [done |].
  by destruct (rows T).
Qed.

(** X17. The table of a crawl whose listing pages are all fetched has
    either no column and no row, or exactly the four columns with
    labels counting from zero; it has no more rows than items were
    found, and it is empty exactly when it has no row. *)
Theorem crawl_table_shape (category base_url : string) (num_pages : Z)
    (w : World) (tr : list Event) :
  CATEGORIES !! category = Some base_url →
  (∀ p, p ∈ seqZ 1 num_pages →
        is_Some (Crawl.fetched w (Crawl.page_url base_url p))) →
  ∃ T, fst (scrape_category category num_pages w tr) = inr T ∧
       (columns T = [] ∧ rows T = [] ∨
        columns T = ["nom"; "prix"; "adresse"; "image_lien"] ∧
        map label (rows T) = map Z.of_nat (seq 0 (length (rows T)))) ∧
       (length (rows T)
        ≤ length (concat (map (λ p, Crawl.page_items w (Crawl.page_url base_url p))
                            (seqZ 1 num_pages))))%nat ∧
       (Frame.empty T = true ↔ rows T = []).
Proof.
  intros Hcat Hok. eexists. split; [by apply crawl_result |].
  destruct (crawl_table_cases _ (crawl_items_named w base_url (seqZ 1 num_pages)))
    as [Hshape Hlen].
  split_and!; [done | done |].
  apply empty_no_rows. destruct Hshape as [H | [H _]]; [by left | by right].
Qed.

Lemma crawl_table_shape_witness :
  CATEGORIES !! "chiens" = Some "https://sn.coinafrique.com/categorie/chiens" ∧
  ∃ T, fst (scrape_category "chiens" 1 sample_site []) = inr T ∧
       (columns T = [] ∧ rows T = [] ∨
        columns T = ["nom"; "prix"; "adresse"; "image_lien"] ∧
        map label (rows T) = map Z.of_nat (seq 0 (length (rows T)))) ∧
       (length (rows T)
        ≤ length (concat (map (λ p, Crawl.page_items sample_site
                                      (Crawl.page_url
                                         "https://sn.coinafrique.com/categorie/chiens" p))
                            (seqZ 1 1))))%nat ∧
       (Frame.empty T = true ↔ rows T = []).
Proof.
  assert (H1 : CATEGORIES !! "chiens"
               = Some "https://sn.coinafrique.com/categorie/chiens") by reflexivity.
  refine (conj H1 (crawl_table_shape "chiens" _ 1 sample_site [] H1 _)).
  intros p Hp. vm_compute in Hp. apply list_elem_of_singleton in Hp as ->.
  vm_compute. by eexists.
Defined.

Lemma scrape_page_named w url tr items tr' :
  scrape_page url w tr = (inr items, tr') →
  Forall (λ it, nom it ≠ EmptyString) items.
Proof.
  intros Hrun. destruct (Crawl.fetched w url) as [soup |] eqn:Hf.
  - rewrite (scrape_page_log w url soup tr Hf) in Hrun. injection Hrun as <- _.
    pose proof (page_items_named w url) as H. unfold Crawl.page_items in H.
    by rewrite Hf in H.
  - destruct (scrape_page_failed w url tr Hf) as [msg Hmsg].
    by rewrite Hmsg in Hrun.
Qed.

Lemma scrape_pages_named w base_url num_pages pages all_data tr items tr' :
  Forall (λ it, nom it ≠ EmptyString) all_data →
  scrape_pages base_url num_pages pages all_data w tr = (inr items, tr') →
  Forall (λ it, nom it ≠ EmptyString) items.
Proof.
  revert all_data tr. induction pages as [| p pages IH]; intros all_data tr Hall.
  - simpl. unfold mret, Scr_ret. by intros [= <- _].
  - change (scrape_pages base_url num_pages (p :: pages) all_data) with
      (page_data ← scrape_page (Crawl.page_url base_url p);
       _ ← (if bool_decide (p < num_pages) then Py.sleep else mret tt);
       scrape_pages base_url num_pages pages (all_data ++ page_data)).
    unfold mbind at 1, Scr_bind.
    destruct (scrape_page (Crawl.page_url base_url p) w tr)
      as [[e | page_data] tr1] eqn:Hpage; [done |].
    unfold mbind at 1, Scr_bind.
    destruct ((if bool_decide (p < num_pages) then Py.sleep else mret tt) w tr1)
      as [[e | []] tr2] eqn:Hsleep.
    { case_bool_decide; by inversion Hsleep. }
    apply IH. apply Forall_app. split; [done |].
    by eapply scrape_page_named.
Qed.

(** X18. The frame [scrape_category] builds from the items of its pages
    and hands to the cleaner holds only strings and [None], and every
    row of it has a name that is a non-empty string: the mask of
    step 1 is true on all its rows. *)
Theorem crawl_rows_pass_name_filter (w : World) (base_url : string)
    (num_pages : Z) (tr tr' : list Event) (all_data : list Item) :
  scrape_pages base_url num_pages (seqZ 1 num_pages) [] w tr = (inr all_data, tr') →
  let df := DataFrame_of all_data in
  raw df ∧
  Forall (λ r, ∃ s, cells r !! "nom" = Some (VStr s) ∧ s ≠ EmptyString) (rows df) ∧
  Forall (λ r, Cell.notna (Frame.cell "nom" r) &&
               Cell.str_len_positive (Frame.cell "nom" r) = true) (rows df).
Proof.
  intros Hrun df. split; [apply item_rows_raw |].
  assert (Forall Spec.has_name (rows df)) as Hnamed.
  { unfold df, DataFrame_of.
    pose proof (scrape_pages_named _ _ _ _ _ _ _ _ (Forall_nil_2 _) Hrun) as Hn.
    destruct all_data as [| it0 items0]; [by apply Forall_nil |].
    by apply item_rows_named. }
  split.
  - eapply Forall_impl; [exact Hnamed |]. intros r Hr.
    destruct (has_name_cell r Hr) as (s & Hs & _ & Hne).
    exists s. split; [| done]. revert Hs. unfold Spec.name_of.
    by destruct (cells r !! "nom") as [[| | s' | x] |]; intros [= ->].
  - eapply Forall_impl; [exact Hnamed |]. intros r Hr.
    destruct (has_name_cell r Hr) as (s & _ & -> & Hne).
    simpl. apply bool_decide_eq_true. destruct s; [done | simpl; lia].
Qed.

Lemma crawl_rows_pass_name_filter_witness :
  scrape_pages "https://sn.coinafrique.com/categorie/chiens" 1 (seqZ 1 1) []
    sample_site []
  = (inr [mkItem "Medor" (Some "25 000 CFA") None None],
     [EvGet "https://sn.coinafrique.com/categorie/chiens";
      EvSleep; EvGet "https://sn.coinafrique.com/annonce/1";
      EvSleep; EvGet "https://sn.coinafrique.com/annonce/2"]) ∧
  let df := DataFrame_of [mkItem "Medor" (Some "25 000 CFA") None None] in
  raw df ∧
  Forall (λ r, ∃ s, cells r !! "nom" = Some (VStr s) ∧ s ≠ EmptyString) (rows df) ∧
  Forall (λ r, Cell.notna (Frame.cell "nom" r) &&
               Cell.str_len_positive (Frame.cell "nom" r) = true) (rows df).
Proof.
  assert (H : scrape_pages "https://sn.coinafrique.com/categorie/chiens" 1
                (seqZ 1 1) [] sample_site []
              = (inr [mkItem "Medor" (Some "25 000 CFA") None None],
                 [EvGet "https://sn.coinafrique.com/categorie/chiens";
                  EvSleep; EvGet "https://sn.coinafrique.com/annonce/1";
                  EvSleep; EvGet "https://sn.coinafrique.com/annonce/2"]))
    by reflexivity.
  exact (conj H (crawl_rows_pass_name_filter sample_site _ 1 [] _ _ H)).
Defined.

(** X20. The table of a crawl whose listing pages are all fetched is
    saved exactly when it has a row: without rows the save raises a
    [ValueError] and writes nothing, with rows it writes the table to
    [data/scraped/<filename>.csv] when the disk takes the file. *)
Theorem crawl_then_save (category base_url : string) (num_pages : Z)
    (w : World) (tr : list Event) (filename : string) (disk : Disk)
    (out : list Written) :
  CATEGORIES !! category = Some base_url →
  (∀ p, p ∈ seqZ 1 num_pages →
        is_Some (Crawl.fetched w (Crawl.page_url base_url p))) →
  let filepath := String.append "data/scraped/" (String.append filename ".csv") in
  ∃ T, fst (scrape_category category num_pages w tr) = inr T ∧
       (rows T = [] →
        ∃ msg, save_to_csv T filename disk out = (inl (ValueError msg), out)) ∧
       (rows T ≠ [] → disk filepath = None →
        save_to_csv T filename disk out
        = (inr filepath, out ++ [mkWritten filepath T])).
Proof.
  intros Hcat Hok filepath. eexists. split; [by apply crawl_result |].
  destruct (crawl_table_cases _ (crawl_items_named w base_url (seqZ 1 num_pages)))
    as [Hshape _].
  set (T := clean_result _) in *.
  assert (Frame.empty T = true ↔ rows T = []) as Hempty.
  { apply empty_no_rows. destruct Hshape as [H | [H _]]; [by left | by right]. }
  unfold save_to_csv, to_csv. fold filepath. split.
  - intros Hnil. apply Hempty in Hnil. rewrite Hnil. by eexists.
  - intros Hrows Hdisk. destruct (Frame.empty T) eqn:He.
    + exfalso. by apply Hrows, Hempty.
    + by rewrite Hdisk.
Qed.

Lemma crawl_then_save_witness :
  CATEGORIES !! "chiens" = Some "https://sn.coinafrique.com/categorie/chiens" ∧
  ∃ T, fst (scrape_category "chiens" 1 sample_site []) = inr T ∧
       (rows T = [] →
        ∃ msg, save_to_csv T "chiens_20240101_120000" sample_disk []
               = (inl (ValueError msg), [])) ∧
       (rows T ≠ [] →
        sample_disk "data/scraped/chiens_20240101_120000.csv" = None →
        save_to_csv T "chiens_20240101_120000" sample_disk []
        = (inr "data/scraped/chiens_20240101_120000.csv",
           [] ++ [mkWritten "data/scraped/chiens_20240101_120000.csv" T])).
Proof.
  assert (H1 : CATEGORIES !! "chiens"
               = Some "https://sn.coinafrique.com/categorie/chiens") by reflexivity.
  refine (conj H1 (crawl_then_save "chiens" _ 1 sample_site []
                     "chiens_20240101_120000" sample_disk [] H1 _)).
  intros p Hp. vm_compute in Hp. apply list_elem_of_singleton in Hp as ->.
  vm_compute. by eexists.
Defined.

(* ===================================================================== *)
(** ** The URLs a crawl asks for                                          *)
(* ===================================================================== *)

Lemma starts_with_append (p s t : string) :
  PyStr.starts_with p s = true → PyStr.starts_with p (String.append s t) = true.
Proof.
  revert s. induction p as [| a p IH]; intros [| b s]; simpl; try done.
  intros H. apply andb_true_iff in H as [Hab Hps].
  change (Ascii.eqb a b && PyStr.starts_with p (String.append s t) = true).
  by rewrite Hab, IH.
Qed.

Lemma categories_on_site (category base_url : string) :
  CATEGORIES !! category = Some base_url →
  PyStr.starts_with Log.site base_url = true.
Proof.
  revert category base_url.
  change (map_Forall (λ _ b, PyStr.starts_with Log.site b = true) CATEGORIES).
  unfold CATEGORIES.
  repeat (apply map_Forall_insert_2; [reflexivity |]). apply map_Forall_empty.
Qed.

Lemma page_url_on_site (base_url : string) (p : Z) :
  PyStr.starts_with Log.site base_url = true →
  PyStr.starts_with Log.site (Crawl.page_url base_url p) = true.
Proof.
  intros H. unfold Crawl.page_url. case_bool_decide; [done |].
  by apply starts_with_append.
Qed.

Lemma container_events_on_site (c : Container) (url : string) :
  EvGet url ∈ Log.container_events c → PyStr.starts_with Log.site url = true.
Proof.
  unfold Log.container_events, Crawl.detail_url.
  destruct (find_a c) as [a |]; simpl; [| by intros ?%elem_of_nil].
  destruct (attrs a !! "href") as [href |]; simpl; [| by intros ?%elem_of_nil].
  intros H. apply elem_of_cons in H as [[=] | H].
  apply list_elem_of_singleton in H as [= ->]. reflexivity.
Qed.

Lemma page_events_on_site (w : World) (page url : string) :
  PyStr.starts_with Log.site page = true →
  EvGet url ∈ Log.page_events w page → PyStr.starts_with Log.site url = true.
Proof.
  intros Hpage. unfold Log.page_events. intros H.
  apply elem_of_cons in H as [[= ->] | H]; [done |].
  destruct (Crawl.fetched w page) as [soup |]; [| by apply elem_of_nil in H].
  induction (find_all_containers soup) as [| c cs IH]; [by apply elem_of_nil in H |].
  change (EvGet url ∈ Log.container_events c ++ concat (map Log.container_events cs))
    in H.
  apply elem_of_app in H as [H | H]; [| by apply IH].
  by eapply container_events_on_site.
Qed.

Lemma crawl_events_on_site (w : World) (base_url : string) (num_pages : Z)
    (pages : list Z) (url : string) :
  PyStr.starts_with Log.site base_url = true →
  EvGet url ∈ Log.crawl_events w base_url num_pages pages →
  PyStr.starts_with Log.site url = true.
Proof.
  intros Hbase. induction pages as [| p pages IH]; [by intros ?%elem_of_nil |].
  rewrite crawl_events_cons. intros H.
  apply elem_of_app in H as [H | H]; [| by apply IH].
  apply elem_of_app in H as [H | H].
  - eapply page_events_on_site; [| exact H]. by apply page_url_on_site.
  - case_bool_decide; [| by apply elem_of_nil in H].
    by apply list_elem_of_singleton in H.
Qed.

(** X21. Whatever the site answers and whatever links its pages hold,
    every URL the crawl asks for starts with the address of the site. *)
Theorem requests_stay_on_site (category : string) (num_pages : Z) (w : World)
    (url : string) :
  EvGet url ∈ snd (scrape_category category num_pages w []) →
  PyStr.starts_with "https://sn.coinafrique.com" url = true.
Proof.
  unfold scrape_category.
  destruct (CATEGORIES !! category) as [base_url |] eqn:Hcat;
    [| by intros ?%elem_of_nil].
  pose proof (categories_on_site _ _ Hcat) as Hbase.
  unfold mbind at 1, Scr_bind.
  destruct (scrape_pages base_url num_pages (seqZ 1 num_pages) [] w [])
    as [[e0 | items] tr0] eqn:Hrun.
  - destruct (scrape_pages_raise _ _ _ _ _ _ _ Hrun)
      as (k & msg & Hk & _ & _ & _ & ->).
    simpl. intros H. apply elem_of_app in H as [H | H].
    + by eapply crawl_events_on_site.
    + apply list_elem_of_singleton in H as [= ->]. by apply page_url_on_site.
  - rewrite cleaned_spec. simpl.
    destruct (first_failure w base_url (Z.to_nat num_pages))
      as [Hall | (k & Hk & Hbefore & Hfail)].
    + rewrite scrape_pages_log in Hrun.
      * injection Hrun as _ <-. simpl. by apply crawl_events_on_site.
      * intros p Hp. apply elem_of_seqZ in Hp. apply Hall. lia.
    + assert (1 ≤ k ≤ num_pages) as Hk' by lia.
      rewrite (seqZ_split k num_pages Hk') in Hrun.
      destruct (scrape_pages_abort w base_url num_pages (seqZ 1 (k - 1)) k
                  (seqZ (k + 1) (num_pages - k)) [] []) as [msg Hmsg]; [| done |].
      { intros p Hp. apply elem_of_seqZ in Hp. apply Hbefore. lia. }
      by rewrite Hmsg in Hrun.
Qed.

Lemma requests_stay_on_site_witness :
  EvGet "https://sn.coinafrique.com/annonce/2"
    ∈ snd (scrape_category "chiens" 1 sample_site []) ∧
  PyStr.starts_with "https://sn.coinafrique.com"
    "https://sn.coinafrique.com/annonce/2" = true.
Proof.
  assert (H : EvGet "https://sn.coinafrique.com/annonce/2"
                ∈ snd (scrape_category "chiens" 1 sample_site []))
    by (vm_compute; set_solver).
  exact (conj H (requests_stay_on_site "chiens" 1 sample_site _ H)).
Defined.

(* ===================================================================== *)
(** ** The texts of an item are trimmed                                   *)
(* ===================================================================== *)

Lemma rstrip_head (c : ascii) (t : string) :
  PyStr.is_space c = false → ∃ x, PyStr.rstrip (String c t) = String c x.
Proof.
  intros Hc. simpl. destruct (PyStr.rstrip t); [rewrite Hc |]; by eexists.
Qed.

Lemma rstrip_again (s : string) : PyStr.rstrip (PyStr.rstrip s) = PyStr.rstrip s.
Proof.
  induction s as [| c t IH]; [done |].
  simpl. destruct (PyStr.rstrip t) as [| c' t'] eqn:E.
  - destruct (PyStr.is_space c) eqn:Hc; [done |]. simpl. by rewrite Hc.
  - change (PyStr.rstrip (String c (String c' t'))) with
      (match PyStr.rstrip (String c' t') with
       | EmptyString => if PyStr.is_space c then EmptyString else String c EmptyString
       | x => String c x
       end).
    by rewrite IH.
Qed.

Lemma lstrip_head (s : string) :
  PyStr.lstrip s = EmptyString ∨
  ∃ c t, PyStr.lstrip s = String c t ∧ PyStr.is_space c = false.
Proof.
  induction s as [| c t IH]; [by left |].
  simpl. destruct (PyStr.is_space c) eqn:Hc; [exact IH |].
  right. by exists c, t.
Qed.

Lemma strip_again (s : string) : PyStr.strip (PyStr.strip s) = PyStr.strip s.
Proof.
  unfold PyStr.strip.
  destruct (lstrip_head s) as [-> | (c & t & -> & Hc)]; [done |].
  destruct (rstrip_head c t Hc) as [x Hx].
  rewrite Hx. simpl PyStr.lstrip. rewrite Hc, <- Hx. apply rstrip_again.
Qed.

Lemma item_of_trimmed (w : World) (c : Container) (it : Item) :
  Crawl.item_of w c = Some it →
  nom it ≠ EmptyString ∧
  PyStr.strip (nom it) = nom it ∧
  ∀ p, prix it = Some p → PyStr.strip p = p.
Proof.
  intros Hit. split; [by eapply item_of_named |]. revert Hit.
  unfold Crawl.item_of.
  destruct (Crawl.detail_url c) as [url |]; [| done]. simpl.
  destruct (Crawl.fetched w url) as [soup |]; [| done]. simpl.
  destruct (Crawl.extracted soup) as [[[title price] a] |] eqn:E; [| done]. simpl.
  assert (∀ n, title = Some n → PyStr.strip n = n) as Htitle.
  { revert E. unfold Crawl.extracted, Crawl.trimmed_text.
    destruct (find_title soup) as [| [t |]]; try done;
      destruct (find_price soup) as [| pt]; try done;
      destruct (find_address soup) as [| [span |]]; try done;
      try destruct (attrs span !! "data-address"); try done;
      intros [= <- _ _] n [= <-]; apply strip_again. }
  assert (∀ p, price = Some p → PyStr.strip p = p) as Hprice.
  { revert E. unfold Crawl.extracted, Crawl.trimmed_text.
    destruct (find_title soup) as [| tt]; try done;
      destruct (find_price soup) as [| [t |]]; try done;
      destruct (find_address soup) as [| [span |]]; try done;
      try destruct (attrs span !! "data-address"); try done;
      intros [= _ <- _] n [= <-]; apply strip_again. }
  destruct title as [[| ch n] |]; try done.
  intros [= <-]. simpl. split; [by apply Htitle | exact Hprice].
Qed.

(** X22. The name and the price text of every item [scrape_page]
    returns are trimmed: stripping them again changes nothing, and the
    name is never empty. *)
Theorem item_texts_trimmed (w : World) (page : string) (tr tr' : list Event)
    (data : list Item) :
  scrape_page page w tr = (inr data, tr') →
  Forall (λ it, nom it ≠ EmptyString ∧
                PyStr.strip (nom it) = nom it ∧
                ∀ p, prix it = Some p → PyStr.strip p = p) data.
Proof.
  intros Hrun. destruct (Crawl.fetched w page) as [soup |] eqn:Hf.
  - rewrite (scrape_page_log w page soup tr Hf) in Hrun. injection Hrun as <- _.
    apply Forall_forall. intros it Hit.
    apply list_elem_of_omap in Hit as (c & _ & Hc). by eapply item_of_trimmed.
  - destruct (scrape_page_failed w page tr Hf) as [msg Hmsg].
    by rewrite Hmsg in Hrun.
Qed.

Lemma item_texts_trimmed_witness :
  scrape_page "https://sn.coinafrique.com/categorie/chiens" sample_site []
  = (inr [mkItem "Medor" (Some "25 000 CFA") None None],
     [EvGet "https://sn.coinafrique.com/categorie/chiens";
      EvSleep; EvGet "https://sn.coinafrique.com/annonce/1";
      EvSleep; EvGet "https://sn.coinafrique.com/annonce/2"]) ∧
  Forall (λ it, nom it ≠ EmptyString ∧
                PyStr.strip (nom it) = nom it ∧
                ∀ p, prix it = Some p → PyStr.strip p = p)
    [mkItem "Medor" (Some "25 000 CFA") None None].
Proof.
  assert (H : scrape_page "https://sn.coinafrique.com/categorie/chiens" sample_site []
              = (inr [mkItem "Medor" (Some "25 000 CFA") None None],
                 [EvGet "https://sn.coinafrique.com/categorie/chiens";
                  EvSleep; EvGet "https://sn.coinafrique.com/annonce/1";
                  EvSleep; EvGet "https://sn.coinafrique.com/annonce/2"]))
    by reflexivity.
  exact (conj H (item_texts_trimmed sample_site _ [] _ _ H)).
Defined.
